(** * sofifa-scraper-fc25: a shallow embedding of Script_1.py and Script_2.py

    The two scripts drive a browser over a team page of sofifa.com, visit
    every player page and export what they collected.  The embedding keeps
    the control flow of the scripts (retry loops, early returns, exception
    handlers, the final export) and the string processing they do on the
    parsed pages.  The collaborators the scripts call but do not implement
    are kept outside: the browser is a deterministic stub ([Driver]) whose
    answers depend on how many navigations were made, and the library calls
    whose result the scripts only pass on ([json.loads], [str] of a tag,
    [DataFrame.sort_values]) are the operations of a class ([Library]).

    Python [str] values are modelled as [string]; a character stands for a
    code point below 256, where the decimal digits are 0-9 and the white
    space of [str.strip] and of the regular expression class \s is
    9-13, 28-32, 133 and 160. *)

From Stdlib Require Import String Ascii List Bool Arith ZArith Lia.
From Stdlib Require Import Permutation Sorted.
Import ListNotations.

Set Warnings "-register-all".

Open Scope string_scope.
Open Scope nat_scope.
Open Scope list_scope.

(* ================================================================== *)
(** ** Python strings *)

Module Py.

Definition isspace (c : ascii) : bool :=
  let n := nat_of_ascii c in
  ((9 <=? n) && (n <=? 13)) || ((28 <=? n) && (n <=? 32))
  || (n =? 133) || (n =? 160).

Definition isdigit (c : ascii) : bool :=
  let n := nat_of_ascii c in (48 <=? n) && (n <=? 57).

(** [s.lstrip()], [s.rstrip()], [s.strip()] *)
Fixpoint lstrip (s : string) : string :=
  match s with
  | String c s' => if isspace c then lstrip s' else s
  | EmptyString => EmptyString
  end.

Fixpoint rstrip (s : string) : string :=
  match s with
  | EmptyString => EmptyString
  | String c s' =>
      match rstrip s' with
      | EmptyString => if isspace c then EmptyString else String c EmptyString
      | r => String c r
      end
  end.

Definition strip (s : string) : string := rstrip (lstrip s).

(** [s[n:]] *)
Fixpoint drop (n : nat) (s : string) : string :=
  match n, s with
  | S n', String _ s' => drop n' s'
  | _, _ => s
  end.

(** [s[:n]] *)
Fixpoint take (n : nat) (s : string) : string :=
  match n, s with
  | S n', String c s' => String c (take n' s')
  | _, _ => EmptyString
  end.

(** [sub in s] *)
Fixpoint contains (sub s : string) : bool :=
  if prefix sub s then true
  else match s with
       | EmptyString => false
       | String _ s' => contains sub s'
       end.

(** [s.replace(old, new)]: the occurrences of [old] are replaced from left
    to right without overlap; [skip] counts the characters of a replaced
    occurrence still to be passed over.  An empty [old] matches between
    every two characters and at both ends. *)
Fixpoint replace_from (old new : string) (skip : nat) (s : string) : string :=
  match s with
  | EmptyString => EmptyString
  | String c s' =>
      match skip with
      | S k => replace_from old new k s'
      | O =>
          if prefix old s
          then (new ++ replace_from old new (String.length old - 1) s')%string
          else String c (replace_from old new 0 s')
      end
  end.

Fixpoint interleave (new s : string) : string :=
  match s with
  | EmptyString => new
  | String c s' => (new ++ String c (interleave new s'))%string
  end.

Definition replace (s old new : string) : string :=
  if (old =? "")%string then interleave new s else replace_from old new 0 s.

(** [s.split(sep)[0]] for a one-character separator *)
Fixpoint split_head (sep : ascii) (s : string) : string :=
  match s with
  | EmptyString => EmptyString
  | String c s' => if Ascii.eqb c sep then EmptyString else String c (split_head sep s')
  end.

(** [s.split()]: the maximal runs of characters that are not white space;
    [cur] is the run being read, reversed. *)
Fixpoint rev_string (acc s : string) : string :=
  match s with
  | EmptyString => acc
  | String c s' => rev_string (String c acc) s'
  end.

Fixpoint split_ws_from (cur : string) (s : string) : list string :=
  let flush := match cur with
               | EmptyString => []
               | _ => [rev_string EmptyString cur]
               end in
  match s with
  | EmptyString => flush
  | String c s' =>
      if isspace c then flush ++ split_ws_from EmptyString s'
      else split_ws_from (String c cur) s'
  end.

Definition split_ws (s : string) : list string := split_ws_from EmptyString s.

(** the longest prefix of digits, of white space *)
Fixpoint take_while (p : ascii -> bool) (s : string) : string :=
  match s with
  | String c s' => if p c then String c (take_while p s') else EmptyString
  | EmptyString => EmptyString
  end.

Fixpoint all_chars (p : ascii -> bool) (s : string) : bool :=
  match s with
  | EmptyString => true
  | String c s' => p c && all_chars p s'
  end.

(** [re.search(r"/player/(\d+)", s)]: the group of the leftmost match, the
    digits after the first "/player/" that a digit follows. *)
Definition player_prefix : string := "/player/".

Definition match_player (s : string) : string :=
  if prefix player_prefix s then take_while isdigit (drop 8 s) else EmptyString.

Fixpoint search_player (s : string) : option string :=
  match match_player s with
  | String c ds => Some (String c ds)
  | EmptyString =>
      match s with
      | EmptyString => None
      | String _ s' => search_player s'
      end
  end.

(** [re.search(r"\d{4}\s*~\s*\d{4}", s)]: the text of the leftmost match.
    Neither white space nor a digit is a tilde and no digit is white
    space, so the greedy \s* never has to give anything back. *)
Definition four_digits (s : string) : option string :=
  let d := take 4 s in
  if (String.length d =? 4) && all_chars isdigit d then Some d else None.

Definition match_duration (s : string) : option string :=
  match four_digits s with
  | None => None
  | Some d1 =>
      let r1 := drop 4 s in
      let w1 := take_while isspace r1 in
      match drop (String.length w1) r1 with
      | String "~" r2 =>
          let w2 := take_while isspace r2 in
          match four_digits (drop (String.length w2) r2) with
          | Some d2 => Some (d1 ++ w1 ++ "~" ++ w2 ++ d2)%string
          | None => None
          end
      | _ => None
      end
  end.

Fixpoint search_duration (s : string) : option string :=
  match match_duration s with
  | Some m => Some m
  | None =>
      match s with
      | EmptyString => None
      | String _ s' => search_duration s'
      end
  end.

(** A value as Python holds it after [json.loads]: the detail fields start
    as the string "-" and take whatever the JSON object carries. *)
Inductive pyval : Type :=
| PStr (s : string)
| PNone
| PBool (b : bool)
| PNum (literal : string)
| PList (items : list pyval)
| PDict (items : list (string * pyval)).

(** [d.get(key, default)] on the items of a dict *)
Fixpoint dict_get (items : list (string * pyval)) (key : string) (default : pyval) : pyval :=
  match items with
  | [] => default
  | (k, v) :: rest => if (k =? key)%string then v else dict_get rest key default
  end.

(** A [dict] keeps its keys in insertion order; assigning to a key that is
    already there keeps its place. *)
Fixpoint dict_setitem {V : Type} (d : list (string * V)) (k : string) (v : V) : list (string * V) :=
  match d with
  | [] => [(k, v)]
  | (k', v') :: d' =>
      if (k' =? k)%string then (k', v) :: d' else (k', v') :: dict_setitem d' k v
  end.

(** [dict.fromkeys(keys)]: every key assigned [None] in turn *)
Definition dict_fromkeys (keys : list string) : list (string * unit) :=
  fold_left (fun d k => dict_setitem d k tt) keys [].

(** [list(d)]: the keys in insertion order *)
Definition dict_keys {V : Type} (d : list (string * V)) : list string := map fst d.

End Py.

(* ================================================================== *)
(** ** The parsed page: what BeautifulSoup hands to the scripts *)

Module Soup.

(** A node of the parse tree.  [Text] is a [NavigableString]; [Special] is
    one of its subclasses that [get_text] leaves out of the text of an
    ordinary tag (a comment, the content of a script or style element).
    The attributes of a tag are a dict, so no key occurs twice. *)
Inductive node : Type :=
| Text (s : string)
| Special (s : string)
| Tag (name : string) (attrs : list (string * string)) (children : list node).

(** The nodes below [n] in document order. *)
Fixpoint descendants (n : node) : list node :=
  match n with
  | Tag _ _ cs => flat_map (fun c => c :: descendants c) cs
  | _ => []
  end.

Fixpoint get_attr (attrs : list (string * string)) (key : string) : option string :=
  match attrs with
  | [] => None
  | (k, v) :: rest => if (k =? key)%string then Some v else get_attr rest key
  end.

(** [tag[key]]: [None] stands for the [KeyError] of a missing attribute. *)
Definition attr (n : node) (key : string) : option string :=
  match n with
  | Tag _ a _ => get_attr a key
  | _ => None
  end.

Definition is_tag (name : string) (n : node) : bool :=
  match n with
  | Tag nm _ _ => (nm =? name)%string
  | _ => false
  end.

(** [class_=c]: the class attribute is a list of names, [c] is looked for
    among them. *)
Definition has_class (c : string) (n : node) : bool :=
  match attr n "class" with
  | Some v => existsb (String.eqb c) (Py.split_ws v)
  | None => false
  end.

Definition has_attr_value (key value : string) (n : node) : bool :=
  match attr n key with
  | Some v => (v =? value)%string
  | None => false
  end.

(** [n.find_all(...)] and [n.find(...)] with the test [p] on tags *)
Definition find_all (p : node -> bool) (n : node) : list node :=
  filter p (descendants n).

Definition find (p : node -> bool) (n : node) : option node :=
  List.find p (descendants n).

(** [n.text]: the strings below [n] put together. *)
Fixpoint text (n : node) : string :=
  match n with
  | Text s => s
  | Special _ => EmptyString
  | Tag _ _ cs => fold_right (fun c acc => (text c ++ acc)%string) EmptyString cs
  end.

(** [n.get_text(strip=True)]: every string stripped, the empty ones left
    out, the rest put together. *)
Fixpoint get_text_strip (n : node) : string :=
  match n with
  | Text s => Py.strip s
  | Special _ => EmptyString
  | Tag _ _ cs => fold_right (fun c acc => (get_text_strip c ++ acc)%string) EmptyString cs
  end.

(** [n.string]: the string of a tag with exactly one child, looked for
    through single children; [None] when a tag on the way has no child or
    several. *)
Fixpoint dot_string (n : node) : option string :=
  match n with
  | Text s => Some s
  | Special s => Some s
  | Tag _ _ [c] => dot_string c
  | Tag _ _ _ => None
  end.

(** The first node below [n] that satisfies [p], with its [next_sibling]. *)
Fixpoint find_with_sibling (p : node -> bool) (n : node) : option (node * option node) :=
  match n with
  | Tag _ _ cs =>
      (fix scan (l : list node) : option (node * option node) :=
         match l with
         | [] => None
         | c :: rest =>
             if p c then Some (c, hd_error rest)
             else match find_with_sibling p c with
                  | Some r => Some r
                  | None => scan rest
                  end
         end) cs
  | _ => None
  end.

(** Truth value of a node: a tag is always true, a string is true when it
    is not empty. *)
Definition truthy (n : node) : bool :=
  match n with
  | Text s | Special s => negb (s =? "")%string
  | Tag _ _ _ => true
  end.

(** [soup.select("table tbody tr")]: the [tr] elements below a [tbody]
    that is below a [table], in document order. *)
Fixpoint select_rows_in (in_table in_tbody : bool) (n : node) : list node :=
  match n with
  | Tag name _ cs =>
      let below_table := in_table || (name =? "table")%string in
      let below_tbody := in_tbody || (in_table && (name =? "tbody")%string) in
      (if in_tbody && (name =? "tr")%string then [n] else [])
      ++ flat_map (select_rows_in below_table below_tbody) cs
  | _ => []
  end.

Definition select_rows (soup : node) : list node :=
  match soup with
  | Tag _ _ cs => flat_map (select_rows_in false false) cs
  | _ => []
  end.

(** [soup.select("div.grid div.col")] *)
Fixpoint select_cols_in (in_grid : bool) (n : node) : list node :=
  match n with
  | Tag name _ cs =>
      let is_div := (name =? "div")%string in
      (if in_grid && is_div && has_class "col" n then [n] else [])
      ++ flat_map (select_cols_in (in_grid || (is_div && has_class "grid" n))) cs
  | _ => []
  end.

Definition select_cols (soup : node) : list node :=
  match soup with
  | Tag _ _ cs => flat_map (select_cols_in false) cs
  | _ => []
  end.

End Soup.

(* ================================================================== *)
(** ** Records, the browser stub, the libraries and the trace *)

Module World.

Import Py Soup.

(** What [scrape_player_profile] returns: nine fields, in the order of its
    return statement. *)
Record Detail : Type := mkDetail {
  height : pyval;
  weight : pyval;
  foot : pyval;
  skill_moves : pyval;
  weak_foot : pyval;
  contract_end : pyval;
  value : pyval;
  wage : pyval;
  nationality : pyval
}.

Definition sentinel : pyval := PStr "-".

(** [["-"] * 9] *)
Definition all_sentinel : Detail :=
  mkDetail sentinel sentinel sentinel sentinel sentinel sentinel sentinel sentinel sentinel.

(** A row of Script_1's data frame, in the order of its columns. *)
Record FullRecord : Type := mkFull {
  ID : string;
  Name : string;
  Age : string;
  Overall : string;
  Potential : string;
  Position : string;
  Height : pyval;
  Weight : pyval;
  Pref_Foot : pyval;
  Skill_Moves : pyval;
  Weak_Foot : pyval;
  Contract : pyval;
  Nationality : pyval
}.

(** A row of Script_2's results, a dict with the keys ID, Name, Value, Wage. *)
Record MinimalRecord : Type := mkMinimal {
  m_ID : string;
  m_Name : string;
  m_Value : string;
  m_Wage : string
}.

Inductive format : Type := Xlsx | Txt | Json.

Inductive table : Type :=
| FullTable (rows : list FullRecord)
| MinimalTable (rows : list MinimalRecord).

(** What a run does that can be seen from outside, in the order it does it. *)
Inductive event : Type :=
| Navigate (url : string) (ok : bool)
| RetryWarning (i retries : nat) (url : string)
| NotFound (url : string)
| DebugWrite (player_id : string)
| AttemptFailed (attempt max_retries : nat) (url : string)
| SkipRow (idx : nat)
| RowFailed (idx : nat)
| Fatal
| NoPlayers
| Quit
| Write (f : format) (t : table).

(** The browser and the file system as a test stub: what they answer
    depends on the number of calls of [driver.get] made so far. *)
Record Driver : Type := mkDriver {
  (** [driver.get(url)], call number [n]: does it return (or raise)? *)
  get_ok : nat -> string -> bool;
  (** does [WebDriverWait(...).until(...)] return (or time out)? *)
  wait_ok : nat -> bool;
  (** [BeautifulSoup(driver.page_source, "html.parser")] *)
  page_source : nat -> node;
  (** [document.body.scrollHeight], measurement number [k] on this page *)
  scroll_height : nat -> nat -> Z;
  (** the [href] of the elements [find_elements] returns *)
  player_hrefs : nat -> list string;
  (** does writing the debug file succeed? *)
  file_ok : nat -> bool;
  (** [driver.service.is_connectable()] *)
  connectable : nat -> bool;
  (** does writing an output file succeed? *)
  write_ok : format -> bool
}.

(** The library calls whose results the scripts only pass on. *)
Class Library : Type := mkLibrary {
  (** [json.loads]; [None] stands for [json.JSONDecodeError] *)
  json_loads : string -> option pyval;
  (** [str(tag)], the markup of a tag *)
  str_of_tag : node -> string;
  (** [df.sort_values(by="ID")] on the rows of the frame *)
  sort_values : list FullRecord -> list FullRecord
}.

(** The order of the ID column: Python compares strings code point by
    code point. *)
Definition ID_le (a b : FullRecord) : Prop := String.leb (ID a) (ID b) = true.

(** What pandas documents of [sort_values] with its default [kind]: the
    rows come back in ascending order of the key, none lost, none added.
    (It documents no stability for that kind.) *)
Definition sorts_by_ID (sort : list FullRecord -> list FullRecord) : Prop :=
  forall l, Sorted ID_le (sort l) /\ Permutation (sort l) l.

(** The rows of a given ID, in the order of the list: a sort is stable
    when it keeps them as they were. *)
Definition rows_with_ID (k : string) (l : list FullRecord) : list FullRecord :=
  filter (fun r => String.eqb (ID r) k) l.

(** A computation reads the number of navigations made, and returns a
    result, the new number and what it did. *)
Definition M (A : Type) : Type := nat -> A * nat * list event.

Definition ret {A : Type} (a : A) : M A := fun n => (a, n, []).

Definition bind {A B : Type} (m : M A) (k : A -> M B) : M B :=
  fun n =>
    let '(a, n1, l1) := m n in
    let '(b, n2, l2) := k a n1 in
    (b, n2, l1 ++ l2).

Definition emit (e : event) : M unit := fun n => (tt, n, [e]).

Definition navs : M nat := fun n => (n, n, []).

(** [driver.get(url)]: one more navigation, which returns or raises. *)
Definition driver_get (d : Driver) (url : string) : M bool :=
  fun n => (get_ok d n url, S n, [Navigate url (get_ok d n url)]).

Definition result_of {A : Type} (r : A * nat * list event) : A := fst (fst r).
Definition navs_of {A : Type} (r : A * nat * list event) : nat := snd (fst r).
Definition trace_of {A : Type} (r : A * nat * list event) : list event := snd r.

End World.

Declare Scope monad_scope.
Delimit Scope monad_scope with monad.
Notation "x <- m ;; k" := (World.bind m (fun x => k))
  (at level 61, m at next level, right associativity) : monad_scope.
Notation "m ;;; k" := (World.bind m (fun _ => k))
  (at level 61, right associativity) : monad_scope.
Open Scope monad_scope.

(* ================================================================== *)
(** ** What the two scripts share *)

Module Common.

Import Py Soup World.

(** [scroll_to_bottom]: [last] is [last_height], [k] the number of the
    next measurement.  The loop of the source has no bound; [fuel] bounds
    the iterations of the model and [None] says the bound was too small.
    The result is the number of iterations made. *)
Fixpoint scroll_loop (h : nat -> Z) (fuel : nat) (last : Z) (k : nat) : option nat :=
  match fuel with
  | O => None
  | S fuel' =>
      let new_height := h k in
      if (new_height =? last)%Z then Some 1
      else option_map S (scroll_loop h fuel' new_height (S k))
  end.

Definition scroll_to_bottom (h : nat -> Z) (fuel : nat) : option nat :=
  scroll_loop h fuel (h 0) 1.

(** The loop as the source has it, without a bound: entered with
    [last_height = last] and measurement number [k] next, it leaves through
    its [break] after [n] iterations. *)
Inductive scroll_stops (h : nat -> Z) : Z -> nat -> nat -> Prop :=
| stops_now (last : Z) (k : nat) :
    h k = last -> scroll_stops h last k 1
| stops_later (last : Z) (k n : nat) :
    h k <> last -> scroll_stops h (h k) (S k) n -> scroll_stops h last k (S n).

(** The player id of a URL, or the given default. *)
Definition player_id_of (url default : string) : string :=
  match search_player url with
  | Some ds => ds
  | None => default
  end.

End Common.

(* ================================================================== *)
(** ** Script_1.py: the full-profile pipeline *)

Module Script1.

Import Py Soup World Common.

(** [safe_get(driver, url, retries)]: [i] is the loop variable and [todo]
    the number of values [range(retries)] still has to give. *)
Fixpoint safe_get_loop (d : Driver) (url : string) (retries i todo : nat) : M bool :=
  match todo with
  | O => ret false
  | S todo' =>
      ok <- driver_get d url ;;
      if ok then ret true
      else emit (RetryWarning (S i) retries url) ;;;
           safe_get_loop d url retries (S i) todo'
  end.

Definition safe_get (d : Driver) (url : string) (retries : nat) : M bool :=
  safe_get_loop d url retries 0 retries.

(** [soup.find("title") and "Page not found" in soup.title.text] *)
Definition is_not_found (soup : node) : bool :=
  match find (is_tag "title") soup with
  | Some title => contains "Page not found" (text title)
  | None => false
  end.

(** The JSON-LD block.  The result is [None] when an exception leaves the
    block: [script.string] is [None] and [json.loads] raises [TypeError],
    or the decoded value is not a dict and has no [get].  A
    [JSONDecodeError] is caught and leaves the three fields as they are. *)
Definition ld_json_fields {L : Library} (soup : node) : option (pyval * pyval * pyval) :=
  match find (fun n => is_tag "script" n && has_attr_value "type" "application/ld+json" n) soup with
  | None => Some (sentinel, sentinel, sentinel)
  | Some script =>
      match dot_string script with
      | None => None
      | Some s =>
          match json_loads s with
          | None => Some (sentinel, sentinel, sentinel)
          | Some (PDict data) =>
              Some (dict_get data "height" sentinel,
                    dict_get data "weight" sentinel,
                    dict_get data "nationality" sentinel)
          | Some _ => None
          end
      end
  end.

(** The four fields the loop over the paragraphs assigns. *)
Record Labelled : Type := mkLabelled {
  l_foot : string;
  l_skill_moves : string;
  l_weak_foot : string;
  l_contract_valid_until : string
}.

Definition paragraph_step (acc : Labelled) (p : node) : Labelled :=
  match find (is_tag "label") p with
  | None => acc
  | Some label =>
      let text := strip (Soup.text label) in
      let value_field := strip (replace (get_text_strip p) text "") in
      if (text =? "Preferred foot")%string then
        mkLabelled value_field (l_skill_moves acc) (l_weak_foot acc) (l_contract_valid_until acc)
      else if (text =? "Skill moves")%string then
        mkLabelled (l_foot acc) value_field (l_weak_foot acc) (l_contract_valid_until acc)
      else if (text =? "Weak foot")%string then
        mkLabelled (l_foot acc) (l_skill_moves acc) value_field (l_contract_valid_until acc)
      else if (text =? "Contract valid until")%string then
        mkLabelled (l_foot acc) (l_skill_moves acc) (l_weak_foot acc) value_field
      else acc
  end.

Definition labelled_fields (soup : node) : Labelled :=
  fold_left paragraph_step (find_all (is_tag "p") soup) (mkLabelled "-" "-" "-" "-").

(** The loop over [div] elements of class [info]: the pair is (value, wage). *)
Definition info_step (acc : string * string) (div : node) : string * string :=
  match find (is_tag "label") div with
  | None => acc
  | Some label =>
      if contains "Value" (Soup.text label) then
        (strip (replace (get_text_strip div) "Value" ""), snd acc)
      else if contains "Wage" (Soup.text label) then
        (fst acc, strip (replace (get_text_strip div) "Wage" ""))
      else acc
  end.

Definition info_fields (soup : node) : string * string :=
  fold_left info_step
    (find_all (fun n => is_tag "div" n && has_class "info" n) soup) ("-", "-").

(** [str(node)] *)
Definition str_of {L : Library} (n : node) : string :=
  match n with
  | Text s | Special s => s
  | Tag _ _ _ => str_of_tag n
  end.

(** [contract_duration]: the years next to the first [span] of class [pos]. *)
Definition contract_duration {L : Library} (soup : node) : string :=
  match find_with_sibling (fun n => is_tag "span" n && has_class "pos" n) soup with
  | Some (_, Some sibling) =>
      if truthy sibling then
        match search_duration (str_of sibling) with
        | Some m => m
        | None => "-"
        end
      else "-"
  | _ => "-"
  end.

(** The field parsing of one attempt, from the assignment of the defaults
    to the return statement; [None] when an exception leaves it. *)
Definition extract_fields {L : Library} (soup : node) : option Detail :=
  match ld_json_fields soup with
  | None => None
  | Some (h, w, nation) =>
      let lab := labelled_fields soup in
      let vw := info_fields soup in
      let duration := contract_duration soup in
      let contract :=
        if negb (duration =? "-")%string then duration else l_contract_valid_until lab in
      Some (mkDetail h w (PStr (l_foot lab)) (PStr (l_skill_moves lab))
              (PStr (l_weak_foot lab)) (PStr contract)
              (PStr (fst vw)) (PStr (snd vw)) nation)
  end.

(** How the body of the [try] of one attempt ends. *)
Inductive attempt_end : Type :=
| Returned (r : Detail)
| Continued
| Raised.

Definition attempt {L : Library} (d : Driver) (player_url : string) : M attempt_end :=
  ok <- safe_get d player_url 3 ;;
  if negb ok then ret Continued
  else
    n <- navs ;;
    if negb (wait_ok d n) then ret Raised
    else
      let soup := page_source d n in
      if is_not_found soup then
        emit (NotFound player_url) ;;; ret (Returned all_sentinel)
      else
        let player_id := player_id_of player_url "unknown" in
        if negb (file_ok d n) then ret Raised
        else
          emit (DebugWrite player_id) ;;;
          match extract_fields soup with
          | Some r => ret (Returned r)
          | None => ret Raised
          end.

(** [scrape_player_profile(player_url, driver, debug_dir, max_retries)] *)
Fixpoint scrape_loop {L : Library} (d : Driver) (player_url : string)
  (max_retries attempt_no todo : nat) : M Detail :=
  match todo with
  | O => ret all_sentinel
  | S todo' =>
      e <- attempt d player_url ;;
      match e with
      | Returned r => ret r
      | Continued => scrape_loop d player_url max_retries (S attempt_no) todo'
      | Raised =>
          emit (AttemptFailed (S attempt_no) max_retries player_url) ;;;
          scrape_loop d player_url max_retries (S attempt_no) todo'
      end
  end.

Definition scrape_player_profile {L : Library} (d : Driver) (player_url : string)
  (max_retries : nat) : M Detail :=
  scrape_loop d player_url max_retries 0 max_retries.

(** [export_all_formats]: the three writers one after the other; a writer
    that raises ends the function. *)
Definition export_all_formats (d : Driver) (t : table) : list event :=
  Write Xlsx t ::
  (if write_ok d Xlsx then
     Write Txt t :: (if write_ok d Txt then [Write Json t] else [])
   else []).

(** One pass of the loop over the rows of the table: the records it
    appends to [all_players_data]. *)
Definition process_row {L : Library} (d : Driver) (idx : nat) (row : node) : M (list FullRecord) :=
  let cols := find_all (is_tag "td") row in
  if length cols <? 8 then emit (SkipRow idx) ;;; ret []
  else
    match find (is_tag "a") (nth 1 cols (Text "")) with
    | None => ret []
    | Some name_tag =>
        let name := strip (text name_tag) in
        match attr name_tag "href" with
        | None => emit (RowFailed idx) ;;; ret []
        | Some player_href =>
            let player_id := player_id_of player_href "-" in
            let age := strip (text (nth 2 cols (Text ""))) in
            let overall := strip (text (nth 3 cols (Text ""))) in
            let potential := strip (text (nth 4 cols (Text ""))) in
            let position :=
              match find (fun n => is_tag "span" n && has_class "pos" n)
                      (nth 1 cols (Text "")) with
              | Some posisi_tag => strip (text posisi_tag)
              | None => "-"
              end in
            let full_url := ("https://sofifa.com" ++ player_href)%string in
            r <- scrape_player_profile d full_url 3 ;;
            ret [mkFull player_id name age overall potential position
                   (height r) (weight r) (foot r) (skill_moves r) (weak_foot r)
                   (contract_end r) (nationality r)]
        end
    end.

Fixpoint process_rows {L : Library} (d : Driver) (idx : nat) (rows : list node) : M (list FullRecord) :=
  match rows with
  | [] => ret []
  | row :: rest =>
      here <- process_row d idx row ;;
      later <- process_rows d (S idx) rest ;;
      ret (here ++ later)
  end.

(** The [finally] of the main block. *)
Definition finalize {L : Library} (d : Driver) (n : nat) (all_players_data : list FullRecord) : list event :=
  (if connectable d n then [Quit] else [])
  ++ export_all_formats d (FullTable (sort_values all_players_data)).

(** The main block from its [try] on, the browser being set up: the rows
    collected and the trace of the run, [None] when [fuel] does not cover
    the scrolling of the team page. *)
Definition main {L : Library} (d : Driver) (team_url : string) (fuel : nat)
  : option (list FullRecord * list event) :=
  let '(ok, n, l0) := safe_get d team_url 3 0 in
  if negb ok then Some ([], l0 ++ [Fatal] ++ finalize d n [])
  else
    match scroll_to_bottom (scroll_height d n) fuel with
    | None => None
    | Some _ =>
        if negb (wait_ok d n) then Some ([], l0 ++ [Fatal] ++ finalize d n [])
        else
          let rows := select_rows (page_source d n) in
          let '(all_players_data, n', l1) := process_rows d 1 rows n in
          Some (all_players_data, l0 ++ l1 ++ finalize d n' all_players_data)
    end.

End Script1.

(* ================================================================== *)
(** ** Script_2.py: the name, value and wage pipeline *)

Module Script2.

Import Py Soup World Common.

(** The list comprehension over the elements found: the [href] values
    that contain "/player/", each cut at its first question mark. *)
Definition clean_urls (hrefs : list string) : list string :=
  map (split_head "?") (filter (contains "/player/") hrefs).

(** [list(dict.fromkeys(player_urls))] *)
Definition unique_urls (player_urls : list string) : list string :=
  dict_keys (dict_fromkeys player_urls).

(** How the body of the [try] of one attempt of
    [get_player_urls_from_team] ends; [None] when [fuel] does not cover
    the scrolling. *)
Definition team_attempt (d : Driver) (team_url : string) (fuel : nat)
  : M (option (option (list string))) :=
  ok <- driver_get d team_url ;;
  if negb ok then ret (Some None)
  else
    n <- navs ;;
    match scroll_to_bottom (scroll_height d n) fuel with
    | None => ret None
    | Some _ =>
        if negb (file_ok d n) then ret (Some None)
        else if negb (wait_ok d n) then ret (Some None)
        else ret (Some (Some (unique_urls (clean_urls (player_hrefs d n)))))
    end.

(** [get_player_urls_from_team(team_url, driver, max_retries)]: [attempt]
    is the counter of the source and [todo] is [max_retries - attempt]. *)
Fixpoint team_loop (d : Driver) (team_url : string) (fuel : nat)
  (max_retries attempt todo : nat) : M (option (list string)) :=
  match todo with
  | O => ret (Some [])
  | S todo' =>
      r <- team_attempt d team_url fuel ;;
      match r with
      | None => ret None
      | Some (Some urls) => ret (Some urls)
      | Some None =>
          emit (AttemptFailed (S attempt) max_retries team_url) ;;;
          team_loop d team_url fuel max_retries (S attempt) todo'
      end
  end.

Definition get_player_urls_from_team (d : Driver) (team_url : string) (fuel : nat)
  (max_retries : nat) : M (option (list string)) :=
  team_loop d team_url fuel max_retries 0 max_retries.

(** The loop over the columns of the grid: the pair is (value, wage). *)
Definition col_step (acc : string * string) (col : node) : string * string :=
  match find (fun n => is_tag "div" n && has_class "sub" n) col with
  | None => acc
  | Some sub =>
      let label := strip (text sub) in
      match find (is_tag "em") col with
      | None => acc
      | Some value_el =>
          if (label =? "Value")%string then (strip (text value_el), snd acc)
          else if (label =? "Wage")%string then (fst acc, strip (text value_el))
          else acc
      end
  end.

(** The parsing of a player page: (name, value, wage). *)
Definition parse_player (soup : node) : string * string * string :=
  let name :=
    match find (is_tag "h1") soup with
    | Some name_tag => strip (text name_tag)
    | None => "-"
    end in
  let vw := fold_left col_step (select_cols soup) ("-", "-") in
  (name, fst vw, snd vw).

(** [scrape_name_value_wage(player_url, driver, max_retries)]: the player
    id is read off the URL before the loop. *)
Fixpoint scrape_loop (d : Driver) (player_url player_id : string)
  (max_retries attempt todo : nat) : M MinimalRecord :=
  match todo with
  | O => ret (mkMinimal player_id "-" "-" "-")
  | S todo' =>
      ok <- driver_get d player_url ;;
      n <- navs ;;
      if ok && wait_ok d n then
        let '(name, value, wage) := parse_player (page_source d n) in
        ret (mkMinimal player_id name value wage)
      else
        emit (AttemptFailed (S attempt) max_retries player_url) ;;;
        scrape_loop d player_url player_id max_retries (S attempt) todo'
  end.

Definition scrape_name_value_wage (d : Driver) (player_url : string)
  (max_retries : nat) : M MinimalRecord :=
  let player_id := player_id_of player_url "-" in
  scrape_loop d player_url player_id max_retries 0 max_retries.

(** The loop of the main block over the player URLs. *)
Fixpoint scrape_all (d : Driver) (player_urls : list string) : M (list MinimalRecord) :=
  match player_urls with
  | [] => ret []
  | url :: rest =>
      r <- scrape_name_value_wage d url 3 ;;
      later <- scrape_all d rest ;;
      ret (r :: later)
  end.

(** The three files of the [if results:] branch, in the order of the
    source; a writer that raises ends the run. *)
Definition save_files (d : Driver) (results : list MinimalRecord) : list event :=
  let t := MinimalTable results in
  Write Txt t ::
  (if write_ok d Txt then
     Write Json t :: (if write_ok d Json then [Write Xlsx t] else [])
   else []).

(** The main block from the search for the player URLs on, the browser
    being set up: the results and the trace of the run, [None] when [fuel]
    does not cover the scrolling of the team page. *)
Definition main (d : Driver) (team_url : string) (fuel : nat)
  : option (list MinimalRecord * list event) :=
  let '(found, n, l0) := get_player_urls_from_team d team_url fuel 3 0 in
  match found with
  | None => None
  | Some [] => Some ([], l0 ++ [NoPlayers; Quit])
  | Some player_urls =>
      let '(results, _, l1) := scrape_all d player_urls n in
      Some (results,
            l0 ++ l1 ++ [Quit]
            ++ match results with
               | [] => []
               | _ => save_files d results
               end)
  end.

End Script2.

(* ================================================================== *)
(** ** Reading a trace *)

Module Trace.

Import Py Soup World.

Definition is_navigate (e : event) : bool :=
  match e with Navigate _ _ => true | _ => false end.

Definition is_skip (e : event) : bool :=
  match e with SkipRow _ => true | _ => false end.

Definition is_write (e : event) : bool :=
  match e with Write _ _ => true | _ => false end.

Definition is_debug_write (e : event) : bool :=
  match e with DebugWrite _ => true | _ => false end.

(** The number of calls of [driver.get] in a trace. *)
Definition navigations (l : list event) : nat := length (filter is_navigate l).

(** The number of "Skipping row" warnings in a trace. *)
Definition skip_warnings (l : list event) : nat := length (filter is_skip l).

(** The formats of the files a trace writes, in order. *)
Definition written (l : list event) : list format :=
  flat_map (fun e => match e with Write f _ => [f] | _ => [] end) l.

End Trace.

(* ================================================================== *)
(** ** The properties of a listing row the main loop of Script_1 looks at *)

Module Listing.

Import Py Soup World Common.

Definition cols (row : node) : list node := find_all (is_tag "td") row.

(** Fewer than eight columns. *)
Definition short (row : node) : bool := length (cols row) <? 8.

(** The anchor of the second column. *)
Definition name_anchor (row : node) : option node :=
  find (is_tag "a") (nth 1 (cols row) (Text "")).

(** Eight columns or more and an anchor in the second one. *)
Definition has_anchor (row : node) : bool :=
  negb (short row) && match name_anchor row with Some _ => true | None => false end.

(** Eight columns or more and, in the second one, an anchor that carries
    an [href]. *)
Definition well_formed (row : node) : bool :=
  negb (short row)
  && match name_anchor row with
     | Some a => match attr a "href" with Some _ => true | None => false end
     | None => false
     end.

(** What a record keeps of its row: ID, Name, Age, Overall, Potential and
    Position. *)
Record Reference : Type := mkReference {
  r_id : string;
  r_name : string;
  r_age : string;
  r_overall : string;
  r_potential : string;
  r_position : string
}.

Definition reference_of_record (r : FullRecord) : Reference :=
  mkReference (ID r) (Name r) (Age r) (Overall r) (Potential r) (Position r).

Definition reference_of_row (row : node) : Reference :=
  let c := cols row in
  let a := match name_anchor row with Some a => a | None => Text "" end in
  let href := match attr a "href" with Some h => h | None => "" end in
  mkReference (player_id_of href "-") (strip (text a))
    (strip (text (nth 2 c (Text "")))) (strip (text (nth 3 c (Text ""))))
    (strip (text (nth 4 c (Text ""))))
    (match find (fun n => is_tag "span" n && has_class "pos" n) (nth 1 c (Text "")) with
     | Some t => strip (text t)
     | None => "-"
     end).

End Listing.

(* ================================================================== *)
(** ** The spec's wording of the removal of duplicates *)

Module Spec.

(** Only the first occurrence of each URL is kept, in the order in which
    the URLs are first seen: [seen] holds the URLs met so far. *)
Fixpoint keep_first (seen : list string) (urls : list string) : list string :=
  match urls with
  | [] => []
  | u :: rest =>
      if existsb (String.eqb u) seen then keep_first seen rest
      else u :: keep_first (u :: seen) rest
  end.

Definition first_occurrences (urls : list string) : list string := keep_first [] urls.

End Spec.

(* ================================================================== *)
(** ** Stubs and pages to run the scripts on *)

Module Samples.

Import Py Soup World.

(** An insertion sort on the ID column. *)
Fixpoint insert_by_ID (r : FullRecord) (l : list FullRecord) : list FullRecord :=
  match l with
  | [] => [r]
  | x :: l' => if String.leb (ID r) (ID x) then r :: l else x :: insert_by_ID r l'
  end.

Definition sort_by_ID (l : list FullRecord) : list FullRecord :=
  fold_right insert_by_ID [] l.

(** Libraries for a test: nothing decodes as JSON, a tag prints as the
    empty string. *)
Definition stub_library : Library :=
  mkLibrary (fun _ => None) (fun _ => EmptyString) sort_by_ID.

(** A browser whose navigation number [n] succeeds when [ok n], that
    always shows [page] with the anchors [hrefs], and whose page height
    never changes. *)
Definition browser (ok : nat -> bool) (page : node) (hrefs : list string) : Driver :=
  mkDriver (fun n _ => ok n) (fun _ => true) (fun _ => page) (fun _ _ => 0%Z)
    (fun _ => hrefs) (fun _ => true) (fun _ => true) (fun _ => true).

Definition serve (page : node) : Driver := browser (fun _ => true) page [].

Definition document (children : list node) : node := Tag "[document]" [] children.

Definition html_page (head body : list node) : node :=
  document [Tag "html" [] [Tag "head" [] head; Tag "body" [] body]].

Definition paragraph (label value : string) : node :=
  Tag "p" [] [Tag "label" [] [Text label]; Text value].

(** [<script type="application/ld+json"></script>] *)
Definition empty_ld_script : node :=
  Tag "script" [("type", "application/ld+json")] [].

Definition page_with_empty_ld : node :=
  html_page [empty_ld_script] [paragraph "Preferred foot" "Right"].

Definition page_without_ld : node :=
  html_page [] [paragraph "Preferred foot" "Right"].

Definition not_found_page : node :=
  html_page [Tag "title" [] [Text "Page not found - SoFIFA"]; empty_ld_script]
    [paragraph "Preferred foot" "Right"].

Definition td (children : list node) : node := Tag "td" [] children.

Definition cells (anchor : node) : list node :=
  [td []; td [anchor; Tag "span" [("class", "pos")] [Text "ST"]];
   td [Text "25"]; td [Text "80"]; td [Text "85"]].

(** A row of the squad table with eight columns. *)
Definition player_row (href name : string) : node :=
  Tag "tr" [] (cells (Tag "a" [("href", href)] [Text name]) ++ [td []; td []; td []]).

(** A row with only five columns. *)
Definition five_column_row : node :=
  Tag "tr" [] (cells (Tag "a" [("href", "/player/9/x")] [Text "X"])).

(** A row with eight columns whose anchor has no [href]. *)
Definition row_without_href : node :=
  Tag "tr" [] (cells (Tag "a" [] [Text "Nameless"]) ++ [td []; td []; td []]).

Definition listing (rows : list node) : node :=
  html_page [] [Tag "table" [] [Tag "tbody" [] rows]].

Definition scenario_rows : list node :=
  [player_row "/player/231747/kylian-mbappe/" "K. Mbappe";
   five_column_row;
   player_row "/player/238794/vinicius-jr/" "Vini Jr.";
   player_row "/player/252371/jude-bellingham/" "J. Bellingham"].

(** Another sort that does what pandas documents: it leaves rows of equal
    ID in the reverse of the order they came in. *)
Definition reversing_sort (l : list FullRecord) : list FullRecord :=
  sort_by_ID (rev l).

Definition reversing_library : Library :=
  mkLibrary (fun _ => None) (fun _ => EmptyString) reversing_sort.

(** A squad table of eighteen rows in which the player of the second row
    comes again in the ninth row, under another spelling of his name. *)
Definition squad_rows : list node :=
  [player_row "/player/100/a/" "A"; player_row "/player/101/b/" "B";
   player_row "/player/102/c/" "C"; player_row "/player/103/d/" "D";
   player_row "/player/104/e/" "E"; player_row "/player/105/f/" "F";
   player_row "/player/106/g/" "G"; player_row "/player/107/h/" "H";
   player_row "/player/101/b/" "B again"; player_row "/player/109/j/" "J";
   player_row "/player/110/k/" "K"; player_row "/player/111/l/" "L";
   player_row "/player/112/m/" "M"; player_row "/player/113/n/" "N";
   player_row "/player/114/o/" "O"; player_row "/player/115/p/" "P";
   player_row "/player/116/q/" "Q"; player_row "/player/117/r/" "R"].

(** A player page with the years of the contract next to the position,
    a paragraph for the end of the contract, two paragraphs for the foot
    and the two [info] elements. *)
Definition info (label value : string) : node :=
  Tag "div" [("class", "info")] [Tag "label" [] [Text label]; Text value].

Definition page_with_contract : node :=
  html_page [Tag "title" [] [Text "K. Mbappe FC 25"]]
    [Tag "span" [("class", "pos pos25")] [Text "ST"];
     Text " Real Madrid 2024 ~ 2029 ";
     paragraph "Contract valid until" "2027";
     paragraph "Preferred foot" "Left";
     paragraph " Preferred foot " " Right ";
     paragraph "Height" "178cm";
     info "Value" "180M"; info "Wage" "450K"].

(** The heights of a page that grows for [N + 1] polls and then stays as it is. *)
Definition grows_until (N : nat) (k : nat) : Z := Z.of_nat (Nat.min k (S N)).

End Samples.

(* ================================================================== *)
(** ** Predicates on what the scripts produce *)

Module Invariants.

Import Py Soup World Common.

(** What a list of URLs returned by an attempt looks like. *)
Definition clean_and_unique (d : Driver) (urls : list string) : Prop :=
  NoDup urls
  /\ forall u, In u urls ->
       contains "?" u = false
       /\ exists n href,
            In href (player_hrefs d n)
            /\ contains "/player/" href = true /\ u = split_head "?" href.

(** The label and the value the loop over the paragraphs reads off a
    paragraph that has a label. *)
Definition labelled_value (p : node) : option (string * string) :=
  match find (is_tag "label") p with
  | None => None
  | Some label =>
      let text := strip (Soup.text label) in
      Some (text, strip (replace (get_text_strip p) text ""))
  end.

(** The values of the paragraphs with the given label, in document order. *)
Definition values_of (label : string) (ps : list node) : list string :=
  flat_map (fun p => match labelled_value p with
                     | Some (text, v) => if (text =? label)%string then [v] else []
                     | None => []
                     end) ps.

(** The values that the loop over the [info] elements gives to [value],
    and those it gives to [wage]: a label with "Value" in it goes to the
    first branch of the [if], whatever else it holds. *)
Definition value_candidates (divs : list node) : list string :=
  flat_map (fun div => match find (is_tag "label") div with
                       | Some label =>
                           if contains "Value" (Soup.text label)
                           then [strip (replace (get_text_strip div) "Value" "")]
                           else []
                       | None => []
                       end) divs.

Definition wage_candidates (divs : list node) : list string :=
  flat_map (fun div => match find (is_tag "label") div with
                       | Some label =>
                           if contains "Value" (Soup.text label) then []
                           else if contains "Wage" (Soup.text label)
                                then [strip (replace (get_text_strip div) "Wage" "")]
                                else []
                       | None => []
                       end) divs.

(** The values that the loop of Script_2 over the columns of the grid
    reads for a label: the text of the first [em] of each column whose
    [sub] element has exactly that label, in document order. *)
Definition grid_values (label : string) (cols : list node) : list string :=
  flat_map (fun col =>
              match find (fun n => is_tag "div" n && has_class "sub" n) col,
                    find (is_tag "em") col with
              | Some sub, Some value_el =>
                  if (strip (Soup.text sub) =? label)%string
                  then [strip (Soup.text value_el)] else []
              | _, _ => []
              end) cols.

(** A string that [strip] leaves as it is: no white space at its ends. *)
Definition stripped (s : string) : Prop := strip s = s.

(** An ID as the scripts read it off a URL: the sentinel or a run of
    digits. *)
Definition id_shaped (s : string) : Prop :=
  s = "-" \/ (s <> EmptyString /\ all_chars isdigit s = true).

(** The shape of a match of [\d{4}\s*~\s*\d{4}]: two years around a
    tilde, white space allowed next to the tilde. *)
Definition duration_shaped (m : string) : Prop :=
  exists d1 w1 w2 d2,
    m = (d1 ++ w1 ++ "~" ++ w2 ++ d2)%string
    /\ String.length d1 = 4 /\ all_chars isdigit d1 = true
    /\ all_chars isspace w1 = true /\ all_chars isspace w2 = true
    /\ String.length d2 = 4 /\ all_chars isdigit d2 = true.

(** The text columns of a record of Script_1, and of Script_2. *)
Definition full_text_stripped (r : FullRecord) : Prop :=
  stripped (Name r) /\ stripped (Age r) /\ stripped (Overall r)
  /\ stripped (Potential r) /\ stripped (Position r).

Definition minimal_text_stripped (r : MinimalRecord) : Prop :=
  stripped (m_Name r) /\ stripped (m_Value r) /\ stripped (m_Wage r).

(** The id in the name of the debug file of a record: its ID, and
    "unknown" where the ID is the sentinel. *)
Definition debug_id (r : FullRecord) : string :=
  if (ID r =? "-")%string then "unknown" else ID r.

End Invariants.

(* ================================================================== *)
(** ** The names of the output files *)

Module Output.

Import Py.

Definition slash : ascii := "/".
Definition dot : ascii := ".".

(** [s.strip('/')]: the slashes at both ends taken off. *)
Fixpoint lstrip_char (c : ascii) (s : string) : string :=
  match s with
  | String x s' => if Ascii.eqb x c then lstrip_char c s' else s
  | EmptyString => EmptyString
  end.

Fixpoint rstrip_char (c : ascii) (s : string) : string :=
  match s with
  | EmptyString => EmptyString
  | String x s' =>
      match rstrip_char c s' with
      | EmptyString => if Ascii.eqb x c then EmptyString else String x EmptyString
      | r => String x r
      end
  end.

Definition strip_char (c : ascii) (s : string) : string :=
  rstrip_char c (lstrip_char c s).

(** [s.split(sep)[-1]]: the text after the last separator; [cur] is the
    piece being read. *)
Fixpoint last_piece_from (sep : ascii) (cur s : string) : string :=
  match s with
  | EmptyString => cur
  | String x s' =>
      if Ascii.eqb x sep then last_piece_from sep EmptyString s'
      else last_piece_from sep (cur ++ String x EmptyString) s'
  end.

Definition last_piece (sep : ascii) (s : string) : string :=
  last_piece_from sep EmptyString s.

(** [team_url.strip('/').split('/')[-1]], the name both scripts put into
    the names of their files. *)
Definition team_name (team_url : string) : string :=
  last_piece slash (strip_char slash team_url).

(** [identifier] of Script_1 and [filename_prefix] of Script_2 *)
Definition identifier (team_url : string) : string :=
  ("SCRIPT_1_" ++ team_name team_url)%string.

Definition filename_prefix (team_url : string) : string :=
  ("SCRIPT_2_" ++ team_name team_url)%string.

(** [s.rfind(c)]: the index of the last [c], -1 without one; [i] is the
    index of the first character of [s]. *)
Fixpoint rfind_from (c : ascii) (i : Z) (s : string) : Z :=
  match s with
  | EmptyString => (-1)%Z
  | String x s' =>
      let later := rfind_from c (i + 1) s' in
      if (0 <=? later)%Z then later
      else if Ascii.eqb x c then i else (-1)%Z
  end.

Definition rfind (c : ascii) (s : string) : Z := rfind_from c 0 s.

(** [s.endswith(c)] *)
Fixpoint ends_with (c : ascii) (s : string) : bool :=
  match s with
  | EmptyString => false
  | String x s' =>
      match s' with
      | EmptyString => Ascii.eqb x c
      | String _ _ => ends_with c s'
      end
  end.

(** [c not in s] *)
Definition without (c : ascii) (s : string) : bool :=
  all_chars (fun x => negb (Ascii.eqb x c)) s.

(** [os.path.join(a, b)] of [posixpath]. *)
Definition path_join (a b : string) : string :=
  if prefix "/" b then b
  else if (a =? "")%string || ends_with slash a then (a ++ b)%string
  else (a ++ "/" ++ b)%string.

(** [os.path.splitext(p)[0]] of [posixpath]: the path without the text
    from the last dot of its last component on, a component made of
    leading dots only being kept whole. *)
Definition splitext_root (p : string) : string :=
  let sepIndex := rfind slash p in
  let dotIndex := rfind dot p in
  if (sepIndex <? dotIndex)%Z then
    let name_start := Z.to_nat (sepIndex + 1) in
    let before_dot := take (Z.to_nat dotIndex - name_start) (drop name_start p) in
    if all_chars (fun x => Ascii.eqb x dot) before_dot then p
    else take (Z.to_nat dotIndex) p
  else p.

(** The three files of [export_all_formats(df, output_base)]. *)
Definition script1_files (output_dir team_url : string) : list string :=
  let base := splitext_root (path_join output_dir (identifier team_url)) in
  [(base ++ ".xlsx")%string; (base ++ ".txt")%string; (base ++ ".json")%string].

(** The three files of Script_2's main block. *)
Definition script2_files (output_dir team_url : string) : list string :=
  [path_join output_dir (filename_prefix team_url ++ ".txt");
   path_join output_dir (filename_prefix team_url ++ ".json");
   path_join output_dir (filename_prefix team_url ++ ".xlsx")].

End Output.

(* ================================================================== *)
(** * Properties *)

Import Py Soup World Common Trace.

(** ** The monad *)

Lemma bind_run {A B : Type} (m : M A) (k : A -> M B) (n : nat) :
  bind m k n =
  (result_of (k (result_of (m n)) (navs_of (m n))),
   navs_of (k (result_of (m n)) (navs_of (m n))),
   trace_of (m n) ++ trace_of (k (result_of (m n)) (navs_of (m n)))).
Proof.
  unfold bind, result_of, navs_of, trace_of.
  destruct (m n) as [[a n1] l1]; simpl.
  destruct (k a n1) as [[b n2] l2]; reflexivity.
Qed.

Lemma navigations_app (l1 l2 : list event) :
  navigations (l1 ++ l2) = navigations l1 + navigations l2.
Proof. unfold navigations. now rewrite filter_app, length_app. Qed.

Lemma skip_warnings_app (l1 l2 : list event) :
  skip_warnings (l1 ++ l2) = skip_warnings l1 + skip_warnings l2.
Proof. unfold skip_warnings. now rewrite filter_app, length_app. Qed.

(** ** [safe_get] *)

(** One step of the loop of [safe_get]. *)
Lemma safe_get_loop_step (d : Driver) (url : string) (retries i todo n : nat) :
  Script1.safe_get_loop d url retries i (S todo) n =
  if get_ok d n url then (true, S n, [Navigate url true])
  else
    let r := Script1.safe_get_loop d url retries (S i) todo (S n) in
    (result_of r, navs_of r,
     Navigate url false :: RetryWarning (S i) retries url :: trace_of r).
Proof.
  simpl Script1.safe_get_loop. rewrite bind_run.
  unfold driver_get, result_of, navs_of, trace_of; simpl.
  destruct (get_ok d n url); simpl; [reflexivity|].
  rewrite bind_run. unfold emit, result_of, navs_of, trace_of; simpl.
  reflexivity.
Qed.

(** Every attempt raises: [todo] navigations, the answer is [False]. *)
Lemma safe_get_loop_all_raise (d : Driver) (url : string) (retries : nat) :
  forall todo i n,
    (forall j, j < todo -> get_ok d (n + j) url = false) ->
    let r := Script1.safe_get_loop d url retries i todo n in
    result_of r = false /\ navs_of r = n + todo /\ navigations (trace_of r) = todo.
Proof.
  induction todo as [|todo IH]; intros i n Hall.
  - simpl. unfold result_of, navs_of, trace_of, ret; simpl. repeat split; lia.
  - cbv zeta. rewrite safe_get_loop_step.
    assert (H0 : get_ok d n url = false)
      by (rewrite <- (Nat.add_0_r n); apply Hall; lia).
    rewrite H0.
    destruct (IH (S i) (S n)) as (Hr & Hn & Ht).
    { intros j Hj. replace (S n + j) with (n + S j) by lia. apply Hall. lia. }
    cbv zeta. unfold result_of, navs_of, trace_of in *; simpl.
    repeat split; [assumption | lia |].
    unfold navigations in *; simpl. now rewrite Ht.
Qed.

(** Attempt number [k] (from 0) is the first that does not raise: [k + 1]
    navigations, the answer is [True]. *)
Lemma safe_get_loop_first_success (d : Driver) (url : string) (retries : nat) :
  forall k todo i n,
    k < todo ->
    (forall j, j < k -> get_ok d (n + j) url = false) ->
    get_ok d (n + k) url = true ->
    let r := Script1.safe_get_loop d url retries i todo n in
    result_of r = true /\ navs_of r = n + S k /\ navigations (trace_of r) = S k.
Proof.
  induction k as [|k IH]; intros todo i n Hk Hbefore Hok;
    (destruct todo as [|todo]; [lia|]); cbv zeta; rewrite safe_get_loop_step.
  - rewrite Nat.add_0_r in Hok. rewrite Hok.
    unfold result_of, navs_of, trace_of; simpl. repeat split; lia.
  - assert (H0 : get_ok d n url = false)
      by (rewrite <- (Nat.add_0_r n); apply Hbefore; lia).
    rewrite H0.
    destruct (IH todo (S i) (S n)) as (Hr & Hn & Ht).
    + lia.
    + intros j Hj. replace (S n + j) with (n + S j) by lia. apply Hbefore. lia.
    + replace (S n + k) with (n + S k) by lia. assumption.
    + cbv zeta. unfold result_of, navs_of, trace_of in *; simpl.
      repeat split; [assumption | lia |].
      unfold navigations in *; simpl. now rewrite Ht.
Qed.

(** The answer [False] is given only when every attempt raised. *)
Lemma safe_get_loop_false (d : Driver) (url : string) (retries : nat) :
  forall todo i n,
    result_of (Script1.safe_get_loop d url retries i todo n) = false ->
    forall j, j < todo -> get_ok d (n + j) url = false.
Proof.
  induction todo as [|todo IH]; intros i n Hr j Hj; [lia|].
  rewrite safe_get_loop_step in Hr.
  destruct (get_ok d n url) eqn:Hget.
  - unfold result_of in Hr; simpl in Hr. discriminate.
  - destruct j as [|j]; [now rewrite Nat.add_0_r|].
    replace (n + S j) with (S n + j) by lia.
    apply (IH (S i) (S n)); [|lia].
    unfold result_of in *; simpl in Hr. exact Hr.
Qed.

(** C2: with three attempts allowed, [safe_get] returns [False] after
    exactly three navigations when every navigation raises; it returns
    [True] right after the first navigation that does not raise, having made
    exactly that many navigations (two when the second one succeeds); and
    it returns [False] only when every one of the three navigations raised. *)
Theorem safe_get_retry_bound (d : Driver) (url : string) (n : nat) :
  let r := Script1.safe_get d url 3 n in
  ((forall j, j < 3 -> get_ok d (n + j) url = false) ->
   result_of r = false /\ navigations (trace_of r) = 3 /\ navs_of r = n + 3)
  /\ (forall k, k < 3 ->
      (forall j, j < k -> get_ok d (n + j) url = false) ->
      get_ok d (n + k) url = true ->
      result_of r = true /\ navigations (trace_of r) = S k /\ navs_of r = n + S k)
  /\ (get_ok d n url = false -> get_ok d (n + 1) url = true ->
      result_of r = true /\ navigations (trace_of r) = 2)
  /\ (result_of r = false -> forall j, j < 3 -> get_ok d (n + j) url = false).
Proof.
  cbv zeta. unfold Script1.safe_get.
  split; [|split; [|split]].
  - intros Hall.
    destruct (safe_get_loop_all_raise d url 3 3 0 n Hall) as (Hr & Hn & Ht).
    auto.
  - intros k Hk Hbefore Hok.
    destruct (safe_get_loop_first_success d url 3 k 3 0 n Hk Hbefore Hok)
      as (Hr & Hn & Ht).
    auto.
  - intros Hfirst Hsecond.
    destruct (safe_get_loop_first_success d url 3 1 3 0 n) as (Hr & Hn & Ht);
      [lia | | assumption | auto].
    intros j Hj. assert (j = 0) by lia. subst. now rewrite Nat.add_0_r.
  - apply safe_get_loop_false.
Qed.

(** The two stubs of the spec's test: one that always raises, one that
    succeeds on the second attempt. *)
Example safe_get_always_raising :
  Script1.safe_get (Samples.browser (fun _ => false) (Text "") []) "u" 3 0
  = (false, 3,
     [Navigate "u" false; RetryWarning 1 3 "u";
      Navigate "u" false; RetryWarning 2 3 "u";
      Navigate "u" false; RetryWarning 3 3 "u"]).
Proof. reflexivity. Qed.

Example safe_get_second_attempt :
  Script1.safe_get (Samples.browser (fun n => n =? 1) (Text "") []) "u" 3 0
  = (true, 2, [Navigate "u" false; RetryWarning 1 3 "u"; Navigate "u" true]).
Proof. reflexivity. Qed.

(** ** [scroll_to_bottom] *)

Lemma scroll_stops_positive (h : nat -> Z) (last : Z) (k n : nat) :
  scroll_stops h last k n -> 1 <= n.
Proof. destruct 1; lia. Qed.

(** The loop breaks after [n] iterations exactly when measurement [k + n] is
    the first to repeat the one before it. *)
Lemma scroll_stops_iff (h : nat -> Z) :
  forall n k,
    scroll_stops h (h k) (S k) n <->
    1 <= n /\ h (k + n) = h (k + n - 1)
    /\ forall j, 1 <= j < n -> h (k + j) <> h (k + j - 1).
Proof.
  induction n as [|n IH]; intros k; split.
  - intros H. apply scroll_stops_positive in H. lia.
  - intros [H _]. lia.
  - intros H. inversion H; subst.
    + split; [lia|]. split.
      * replace (k + 1) with (S k) by lia. replace (S k - 1) with k by lia.
        assumption.
      * intros j Hj. lia.
    + match goal with Hs : scroll_stops _ _ _ n |- _ => apply IH in Hs;
        destruct Hs as (Hn & Heq & Hne) end.
      split; [lia|]. split.
      * replace (k + S n) with (S k + n) by lia.
        rewrite Heq. reflexivity.
      * intros j Hj. destruct (Nat.eq_dec j 1) as [->|Hj1].
        -- replace (k + 1) with (S k) by lia. replace (S k - 1) with k by lia.
           assumption.
        -- replace (k + j) with (S k + (j - 1)) by lia.
           specialize (Hne (j - 1)).
           apply Hne. lia.
  - intros (Hn & Heq & Hne). destruct n as [|n'].
    + apply stops_now.
      replace (k + 1) with (S k) in Heq by lia.
      replace (S k - 1) with k in Heq by lia. assumption.
    + apply stops_later.
      * specialize (Hne 1). replace (k + 1) with (S k) in Hne by lia.
        replace (S k - 1) with k in Hne by lia. apply Hne. lia.
      * apply IH. split; [lia|]. split.
        -- replace (S k + S n') with (k + S (S n')) by lia.
           rewrite Heq. reflexivity.
        -- intros j Hj. specialize (Hne (S j)).
           replace (S k + j) with (k + S j) by lia.
           apply Hne. lia.
Qed.

(** The bounded loop of the model gives [n] exactly when the loop of the
    source breaks after [n] iterations and the bound allows that many. *)
Lemma scroll_loop_iff (h : nat -> Z) :
  forall fuel last k n,
    scroll_loop h fuel last k = Some n <-> scroll_stops h last k n /\ n <= fuel.
Proof.
  induction fuel as [|fuel IH]; intros last k n; simpl.
  - split; [discriminate|].
    intros [H Hn]. apply scroll_stops_positive in H. lia.
  - destruct (Z.eqb_spec (h k) last) as [Heq|Hne].
    + split.
      * intros [= <-]. split; [now apply stops_now | lia].
      * intros [H _]. inversion H; subst; [reflexivity | contradiction].
    + split.
      * destruct (scroll_loop h fuel (h k) (S k)) as [m|] eqn:Hloop;
          simpl; [|discriminate].
        intros [= <-]. apply IH in Hloop. destruct Hloop as [Hs Hm].
        split; [now apply stops_later | lia].
      * intros [H Hn]. inversion H; subst; [contradiction|].
        match goal with Hs : scroll_stops _ _ _ ?n' |- _ =>
          assert (Hloop : scroll_loop h fuel (h k) (S k) = Some n')
            by (apply IH; split; [assumption | lia]) end.
        now rewrite Hloop.
Qed.

(** A repeated measurement somewhere ahead makes the loop break. *)
Lemma scroll_stops_exists (h : nat -> Z) :
  forall m k, h (k + S m) = h (k + m) ->
    exists n, n <= S m /\ scroll_stops h (h k) (S k) n.
Proof.
  induction m as [|m IH]; intros k Heq.
  - exists 1. split; [lia|]. apply stops_now.
    replace (k + 1) with (S k) in Heq by lia.
    now rewrite Nat.add_0_r in Heq.
  - destruct (Z.eq_dec (h (S k)) (h k)) as [Hnow|Hlater].
    + exists 1. split; [lia|]. now apply stops_now.
    + destruct (IH (S k)) as (n & Hn & Hs).
      { replace (S k + S m) with (k + S (S m)) by lia.
        replace (S k + m) with (k + S m) by lia. assumption. }
      exists (S n). split; [lia|]. now apply stops_later.
Qed.

(** C8: the loop of [scroll_to_bottom] breaks after [n] iterations exactly
    when measurement [n] is the first that equals the measurement before
    it; the bounded loop of the model agrees with it; a sequence of heights
    that repeats a value on two consecutive polls makes the loop break (and
    every large enough bound lets the model return); on a sequence that
    never does the loop never breaks, whatever the bound; and for every [N]
    there is a page on which the loop makes more than [N] iterations before
    it breaks, so the source bounds the iterations by nothing. *)
Theorem scroll_to_bottom_stops_when_stable :
  (forall h n,
     scroll_stops h (h 0) 1 n <->
     1 <= n /\ h n = h (n - 1) /\ forall j, 1 <= j < n -> h j <> h (j - 1))
  /\ (forall h fuel n,
        scroll_to_bottom h fuel = Some n <-> scroll_stops h (h 0) 1 n /\ n <= fuel)
  /\ (forall h m, h (S m) = h m ->
        exists n, scroll_stops h (h 0) 1 n
                  /\ forall fuel, n <= fuel -> scroll_to_bottom h fuel = Some n)
  /\ (forall h, (forall m, h (S m) <> h m) ->
        (forall n, ~ scroll_stops h (h 0) 1 n)
        /\ forall fuel, scroll_to_bottom h fuel = None)
  /\ (forall N, exists n, N < n /\ scroll_stops (Samples.grows_until N) (Samples.grows_until N 0) 1 n).
Proof.
  split; [|split; [|split; [|split]]].
  - intros h n. apply (scroll_stops_iff h n 0).
  - intros h fuel n. apply scroll_loop_iff.
  - intros h m Heq.
    destruct (scroll_stops_exists h m 0 Heq) as (n & _ & Hs).
    exists n. split; [assumption|].
    intros fuel Hfuel. apply scroll_loop_iff. now split.
  - intros h Hnever.
    assert (Hno : forall n, ~ scroll_stops h (h 0) 1 n).
    { intros n Hs. apply (scroll_stops_iff h n 0) in Hs.
      destruct Hs as (Hn & Heq & _). simpl in Heq.
      apply (Hnever (n - 1)). replace (S (n - 1)) with n by lia. assumption. }
    split; [assumption|].
    intros fuel. destruct (scroll_to_bottom h fuel) as [n|] eqn:Hrun; [|reflexivity].
    apply scroll_loop_iff in Hrun. destruct Hrun as [Hs _].
    now apply Hno in Hs.
  - intros N. exists (S (S N)). split; [lia|].
    apply (scroll_stops_iff (Samples.grows_until N) (S (S N)) 0).
    unfold Samples.grows_until. simpl Nat.add. repeat split; try lia.
Qed.

(** On a page that grows twice and then stays, the loop makes three
    iterations; a bound of two is too small for it. *)
Example scroll_three_polls :
  scroll_to_bottom (Samples.grows_until 1) 5 = Some 3 /\ scroll_to_bottom (Samples.grows_until 1) 2 = None.
Proof. split; reflexivity. Qed.

(** ** The removal of duplicate URLs in [get_player_urls_from_team] *)

Section Dedup.

Local Abbreviation mem x l := (existsb (String.eqb x) l).

Lemma mem_In (x : string) (l : list string) : mem x l = true <-> In x l.
Proof.
  rewrite existsb_exists. split.
  - intros (y & Hy & Heq). apply String.eqb_eq in Heq. now subst.
  - intros H. exists x. split; [assumption | apply String.eqb_refl].
Qed.

Lemma mem_app (x : string) (l1 l2 : list string) :
  mem x (l1 ++ l2) = mem x l1 || mem x l2.
Proof. apply existsb_app. Qed.

(** Assigning to a key appends it when it is new and changes nothing in
    the order of the keys when it is not. *)
Lemma dict_keys_setitem {V : Type} (d : list (string * V)) (k : string) (v : V) :
  dict_keys (dict_setitem d k v) =
  if mem k (dict_keys d) then dict_keys d else dict_keys d ++ [k].
Proof.
  induction d as [|[k' v'] d IH]; simpl; [reflexivity|].
  rewrite (String.eqb_sym k k').
  destruct (String.eqb k' k) eqn:Hk; simpl; [reflexivity|].
  unfold dict_keys in *. rewrite IH.
  now destruct (mem k (map fst d)).
Qed.

Lemma fold_setitem_keys (urls : list string) :
  forall (d : list (string * unit)) (seen : list string),
    (forall x, mem x seen = mem x (dict_keys d)) ->
    dict_keys (fold_left (fun d k => dict_setitem d k tt) urls d)
    = dict_keys d ++ Spec.keep_first seen urls.
Proof.
  induction urls as [|u urls IH]; intros d seen Hseen; simpl.
  - now rewrite app_nil_r.
  - rewrite Hseen. destruct (mem u (dict_keys d)) eqn:Hu.
    + rewrite (IH _ seen).
      * now rewrite dict_keys_setitem, Hu.
      * intros x. now rewrite dict_keys_setitem, Hu.
    + rewrite (IH _ (u :: seen)).
      * rewrite dict_keys_setitem, Hu, <- app_assoc. reflexivity.
      * intros x. rewrite dict_keys_setitem, Hu, mem_app. simpl.
        rewrite Hseen, orb_false_r. apply orb_comm.
Qed.

Lemma keep_first_In (urls : list string) :
  forall seen x, In x (Spec.keep_first seen urls) <-> In x urls /\ mem x seen = false.
Proof.
  induction urls as [|u urls IH]; intros seen x; simpl; [tauto|].
  destruct (mem u seen) eqn:Hu; simpl; rewrite IH; simpl.
  - split; [tauto|]. intros [[->|H] Hx]; [congruence | tauto].
  - destruct (String.eqb_spec x u) as [->|Hne]; simpl.
    + split; [intros [_|[_ H]]; [tauto | discriminate] | tauto].
    + split.
      * intros [->|[H Hx]]; [contradiction | tauto].
      * intros [[->|H] Hx]; [contradiction | tauto].
Qed.

Lemma keep_first_NoDup (urls : list string) :
  forall seen, NoDup (Spec.keep_first seen urls).
Proof.
  induction urls as [|u urls IH]; intros seen; simpl; [constructor|].
  destruct (mem u seen); [apply IH|].
  constructor; [|apply IH].
  rewrite keep_first_In. simpl. rewrite String.eqb_refl. intros [_ H]. discriminate.
Qed.

Lemma unique_urls_keep_first (urls : list string) :
  Script2.unique_urls urls = Spec.first_occurrences urls.
Proof.
  unfold Script2.unique_urls, dict_fromkeys, Spec.first_occurrences.
  now rewrite (fold_setitem_keys urls [] []).
Qed.

End Dedup.

(** C4: [list(dict.fromkeys(player_urls))] is the list of URLs with only
    the first occurrence of each kept, in the order in which they are first
    seen: it equals the spec's [first_occurrences], has no duplicate, holds
    the same URLs as the input, and turns [A,B,A,C,B] into [A,B,C]. *)
Theorem unique_urls_first_seen_order :
  (forall urls,
     Script2.unique_urls urls = Spec.first_occurrences urls
     /\ NoDup (Script2.unique_urls urls)
     /\ forall u, In u (Script2.unique_urls urls) <-> In u urls)
  /\ (forall A B C, A <> B -> A <> C -> B <> C ->
        Script2.unique_urls [A; B; A; C; B] = [A; B; C]).
Proof.
  split.
  - intros urls. rewrite unique_urls_keep_first. unfold Spec.first_occurrences.
    split; [reflexivity|]. split; [apply keep_first_NoDup|].
    intros u. rewrite keep_first_In. simpl. tauto.
  - intros A B C HAB HAC HBC. rewrite unique_urls_keep_first.
    unfold Spec.first_occurrences. simpl.
    apply String.eqb_neq in HAB, HAC, HBC.
    rewrite (String.eqb_sym B A), (String.eqb_sym C A), (String.eqb_sym C B).
    rewrite !String.eqb_refl, HAB, HAC, HBC. simpl. reflexivity.
Qed.

(** Two addresses of one player that differ in their query string are
    one URL after the cleaning. *)
Example unique_urls_run :
  Script2.unique_urls
    (Script2.clean_urls
       ["https://sofifa.com/player/1/a/"; "https://sofifa.com/player/2/b/?r=1";
        "https://sofifa.com/player/1/a/?r=250001"; "https://sofifa.com/team/11/";
        "https://sofifa.com/player/3/c/"; "https://sofifa.com/player/2/b/"])
  = ["https://sofifa.com/player/1/a/"; "https://sofifa.com/player/2/b/";
     "https://sofifa.com/player/3/c/"].
Proof. reflexivity. Qed.

(** ** [scrape_player_profile] *)

(** What one attempt does once [safe_get] has loaded a page that the wait
    accepts and whose title says "Page not found". *)
Lemma attempt_not_found {L : Library} (d : Driver) (url : string) (n : nat) :
  let r0 := Script1.safe_get d url 3 n in
  result_of r0 = true ->
  wait_ok d (navs_of r0) = true ->
  Script1.is_not_found (page_source d (navs_of r0)) = true ->
  Script1.attempt d url n
  = (Script1.Returned all_sentinel, navs_of r0, trace_of r0 ++ [NotFound url]).
Proof.
  cbv zeta. unfold Script1.attempt, bind.
  destruct (Script1.safe_get d url 3 n) as [[ok n1] l0].
  unfold result_of, navs_of, trace_of; simpl.
  intros -> Hwait Hnf. simpl. rewrite Hwait, Hnf. reflexivity.
Qed.

(** [safe_get] writes no debug file. *)
Lemma safe_get_loop_no_debug_write (d : Driver) (url : string) (retries : nat) :
  forall todo i n,
    filter is_debug_write (trace_of (Script1.safe_get_loop d url retries i todo n)) = [].
Proof.
  induction todo as [|todo IH]; intros i n; [reflexivity|].
  rewrite safe_get_loop_step. destruct (get_ok d n url); [reflexivity|].
  cbv zeta. unfold trace_of at 1. cbn [snd]. simpl. apply IH.
Qed.

(** The loop of [scrape_player_profile], wherever it stands, returns from
    an attempt that meets the not-found page. *)
Lemma scrape_loop_not_found {L : Library} (d : Driver) (url : string)
  (max_retries attempt_no todo n : nat) :
  let r0 := Script1.safe_get d url 3 n in
  result_of r0 = true ->
  wait_ok d (navs_of r0) = true ->
  Script1.is_not_found (page_source d (navs_of r0)) = true ->
  Script1.scrape_loop d url max_retries attempt_no (S todo) n
  = (all_sentinel, navs_of r0, trace_of r0 ++ [NotFound url]).
Proof.
  cbv zeta. intros Hres Hwait Hnf.
  cbn [Script1.scrape_loop]. unfold bind at 1.
  rewrite (attempt_not_found d url n Hres Hwait Hnf).
  unfold ret. now rewrite app_nil_r.
Qed.

(** C5: whenever an attempt of [scrape_player_profile] loads a page whose
    title contains "Page not found", the function returns the nine
    sentinels from that attempt, the first one or a later one: no further
    navigation is made and the trace ends with the not-found message, with
    no debug file written and no field parsed (the result does not depend
    on what the rest of the page would parse to). *)
Theorem not_found_short_circuit {L : Library} (d : Driver) (url : string)
  (max_retries attempt_no todo n : nat) :
  let r0 := Script1.safe_get d url 3 n in
  result_of r0 = true ->
  wait_ok d (navs_of r0) = true ->
  Script1.is_not_found (page_source d (navs_of r0)) = true ->
  Script1.scrape_player_profile d url (S todo) n
  = (all_sentinel, navs_of r0, trace_of r0 ++ [NotFound url])
  /\ Script1.scrape_loop d url max_retries attempt_no (S todo) n
     = (all_sentinel, navs_of r0, trace_of r0 ++ [NotFound url])
  /\ filter is_debug_write (trace_of r0 ++ [NotFound url]) = [].
Proof.
  cbv zeta. intros Hres Hwait Hnf. split; [|split].
  - now apply scrape_loop_not_found.
  - now apply scrape_loop_not_found.
  - rewrite filter_app. simpl. rewrite app_nil_r.
    apply safe_get_loop_no_debug_write.
Qed.

(** The not-found page of the samples carries a JSON-LD block that would
    make the field parsing raise; the function returns at the first
    attempt all the same. *)
Lemma not_found_short_circuit_witness :
  Script1.extract_fields (L := Samples.stub_library) Samples.not_found_page = None
  /\ Script1.scrape_loop (L := Samples.stub_library)
       (Samples.serve Samples.not_found_page) "https://sofifa.com/player/1/x" 3 0 3 0
     = (all_sentinel, 1,
        [Navigate "https://sofifa.com/player/1/x" true;
         NotFound "https://sofifa.com/player/1/x"]).
Proof.
  split; [reflexivity|].
  exact (proj1 (proj2 (@not_found_short_circuit Samples.stub_library
                         (Samples.serve Samples.not_found_page)
                         "https://sofifa.com/player/1/x"
                         3 0 2 0 eq_refl eq_refl eq_refl))).
Defined.

(** C1 (the code departs from the claim): a page with an empty
    [<script type="application/ld+json">] element and a "Preferred foot"
    paragraph.  [script.string] is [None], [json.loads] raises a
    [TypeError] that the handler for [JSONDecodeError] does not catch, so
    every one of the three attempts fails and all nine fields are "-",
    whatever the libraries are; the same page without the script element
    gives the foot. *)
Theorem empty_json_ld_loses_other_fields (L : Library) :
  Script1.extract_fields Samples.page_with_empty_ld = None
  /\ Script1.scrape_player_profile (Samples.serve Samples.page_with_empty_ld)
       "https://sofifa.com/player/1/x" 3 0
     = (all_sentinel, 3,
        [Navigate "https://sofifa.com/player/1/x" true; DebugWrite "1";
         AttemptFailed 1 3 "https://sofifa.com/player/1/x";
         Navigate "https://sofifa.com/player/1/x" true; DebugWrite "1";
         AttemptFailed 2 3 "https://sofifa.com/player/1/x";
         Navigate "https://sofifa.com/player/1/x" true; DebugWrite "1";
         AttemptFailed 3 3 "https://sofifa.com/player/1/x"])
  /\ option_map foot (Script1.extract_fields Samples.page_without_ld)
     = Some (PStr "Right").
Proof. repeat split; reflexivity. Qed.

(** The same happens for a block that decodes to anything but an object,
    a JSON array for instance: the value has no [get]. *)
Lemma ld_json_not_a_dict {L : Library} (soup script : node) (s : string) (v : pyval) :
  find (fun n => is_tag "script" n && has_attr_value "type" "application/ld+json" n) soup
  = Some script ->
  dot_string script = Some s ->
  json_loads s = Some v ->
  (forall items, v <> PDict items) ->
  Script1.extract_fields soup = None.
Proof.
  intros Hfind Hstring Hloads Hdict.
  unfold Script1.extract_fields, Script1.ld_json_fields.
  rewrite Hfind, Hstring, Hloads.
  destruct v; try reflexivity. now elim (Hdict items).
Qed.

(** A block that is absent or that does not decode leaves the parsing of
    the other fields alone: the result is there and its JSON fields are
    "-". *)
Lemma ld_json_absent_or_undecodable {L : Library} (soup : node) :
  match find (fun n => is_tag "script" n && has_attr_value "type" "application/ld+json" n) soup with
  | None => True
  | Some script =>
      exists s, dot_string script = Some s /\ json_loads s = None
  end ->
  exists r, Script1.extract_fields soup = Some r
            /\ height r = sentinel /\ weight r = sentinel /\ nationality r = sentinel
            /\ foot r = PStr (Script1.l_foot (Script1.labelled_fields soup))
            /\ value r = PStr (fst (Script1.info_fields soup))
            /\ wage r = PStr (snd (Script1.info_fields soup)).
Proof.
  intros H. unfold Script1.extract_fields, Script1.ld_json_fields.
  destruct (find _ soup) as [script|].
  - destruct H as (s & Hs & Hloads). rewrite Hs, Hloads.
    eexists. split; [reflexivity|]. simpl. repeat split.
  - eexists. split; [reflexivity|]. simpl. repeat split.
Qed.

(** ** Strings: prefixes and the search for a player id *)

Lemma append_assoc (a b c : string) : ((a ++ b) ++ c = a ++ (b ++ c))%string.
Proof. induction a as [|x a IH]; simpl; [reflexivity | now rewrite IH]. Qed.

Lemma prefix_iff (p s : string) :
  prefix p s = true <-> exists rest, s = (p ++ rest)%string.
Proof.
  revert s. induction p as [|a p IH]; intros s.
  - destruct s; simpl; split; eauto.
  - destruct s as [|b s]; simpl;
      [split; [discriminate | intros [rest H]; discriminate]|].
    destruct (Ascii.ascii_dec a b) as [->|Hne].
    + rewrite IH. split; intros [rest H]; exists rest; congruence.
    + split; [discriminate|]. intros [rest H]. congruence.
Qed.

Lemma drop_append (p rest : string) : drop (String.length p) (p ++ rest) = rest.
Proof. induction p as [|a p IH]; simpl; [now destruct rest | assumption]. Qed.

(** A string is its longest prefix of characters with [p], then a rest
    whose first character is without [p]. *)
Lemma take_while_split (p : ascii -> bool) (s : string) :
  exists rest,
    s = (take_while p s ++ rest)%string
    /\ all_chars p (take_while p s) = true
    /\ match rest with String c _ => p c = false | EmptyString => True end.
Proof.
  induction s as [|a s (rest & Heq & Hall & Hrest)]; simpl.
  - exists EmptyString. auto.
  - destruct (p a) eqn:Ha; simpl.
    + exists rest. rewrite <- Heq, Ha, Hall. auto.
    + exists (String a s). auto.
Qed.

(** A match of [/player/(\d+)] at the start of [s]. *)
Lemma match_player_some (s : string) (c : ascii) (ds : string) :
  match_player s = String c ds ->
  exists rest,
    s = ("/player/" ++ String c ds ++ rest)%string
    /\ all_chars isdigit (String c ds) = true
    /\ match rest with String x _ => isdigit x = false | EmptyString => True end.
Proof.
  unfold match_player. destruct (prefix player_prefix s) eqn:Hp; [|discriminate].
  apply prefix_iff in Hp. destruct Hp as [r ->].
  change 8 with (String.length player_prefix). rewrite drop_append.
  intros Hd. destruct (take_while_split isdigit r) as (rest & Heq & Hall & Hrest).
  rewrite Hd in Heq, Hall. exists rest. now rewrite <- Heq.
Qed.

Lemma match_player_none (s : string) :
  match_player s = EmptyString <->
  forall c rest, s = ("/player/" ++ String c rest)%string -> isdigit c = false.
Proof.
  unfold match_player. split.
  - intros H c rest ->.
    change (prefix player_prefix ("/player/" ++ String c rest))
      with true in H.
    change (drop 8 ("/player/" ++ String c rest)) with (String c rest) in H.
    simpl in H. now destruct (isdigit c).
  - intros H. destruct (prefix player_prefix s) eqn:Hp; [|reflexivity].
    apply prefix_iff in Hp. destruct Hp as [r ->].
    change 8 with (String.length player_prefix). rewrite drop_append.
    destruct r as [|c r]; [reflexivity|]. simpl.
    now rewrite (H c r eq_refl).
Qed.

(** What [re.search] finds is a run of digits that follows "/player/" in
    the string and that no further digit follows. *)
Lemma search_player_some (s ds : string) :
  search_player s = Some ds ->
  exists pre rest,
    s = (pre ++ "/player/" ++ ds ++ rest)%string
    /\ ds <> EmptyString /\ all_chars isdigit ds = true
    /\ match rest with String x _ => isdigit x = false | EmptyString => True end.
Proof.
  induction s as [|a s IH]; simpl.
  - discriminate.
  - destruct (match_player (String a s)) as [|c0 ds0] eqn:Hm.
    + intros H. destruct (IH H) as (pre & rest & -> & Hne & Hall & Hrest).
      exists (String a pre), rest. repeat split; assumption.
    + intros [= <-]. apply match_player_some in Hm.
      destruct Hm as (rest & Heq & Hall & Hrest).
      exists EmptyString, rest. repeat split; [assumption | discriminate | assumption | assumption].
Qed.

(** It finds nothing exactly when no "/player/" of the string is followed
    by a digit. *)
Lemma search_player_none (s : string) :
  search_player s = None <->
  forall pre c rest, s = (pre ++ "/player/" ++ String c rest)%string -> isdigit c = false.
Proof.
  induction s as [|a s IH]; simpl.
  - split.
    + intros _ pre c rest H. destruct pre; discriminate.
    + intros _. reflexivity.
  - destruct (match_player (String a s)) as [|c0 ds0] eqn:Hm.
    + rewrite IH. rewrite match_player_none in Hm. split.
      * intros H pre c rest Heq. destruct pre as [|b pre].
        -- apply (Hm c rest). exact Heq.
        -- simpl in Heq. injection Heq as _ Heq. now apply (H pre c rest).
      * intros H pre c rest ->. apply (H (String a pre) c rest). reflexivity.
    + split; [discriminate|]. intros H. exfalso.
      apply match_player_some in Hm. destruct Hm as (rest & Heq & Hall & _).
      simpl in Hall. apply andb_true_iff in Hall. destruct Hall as [Hd _].
      rewrite (H EmptyString c0 (ds0 ++ rest)%string) in Hd; [discriminate|].
      exact Heq.
Qed.

(** A run of digits is not the sentinel. *)
Lemma digits_not_sentinel (ds : string) :
  ds <> EmptyString -> all_chars isdigit ds = true -> ds <> "-".
Proof.
  intros Hne Hall ->. simpl in Hall. discriminate.
Qed.

(** ** [scrape_name_value_wage] *)

(** One failed attempt: the navigation raises or the wait times out. *)
Lemma scrape2_loop_step_failed (d : Driver) (url pid : string)
  (max_retries attempt todo n : nat) :
  get_ok d n url && wait_ok d (S n) = false ->
  Script2.scrape_loop d url pid max_retries attempt (S todo) n =
  let r := Script2.scrape_loop d url pid max_retries (S attempt) todo (S n) in
  (result_of r, navs_of r,
   Navigate url (get_ok d n url) :: AttemptFailed (S attempt) max_retries url
   :: trace_of r).
Proof.
  intros Hfail. cbn [Script2.scrape_loop]. unfold bind, driver_get, navs, emit.
  rewrite Hfail.
  destruct (Script2.scrape_loop d url pid max_retries (S attempt) todo (S n))
    as [[r n'] l].
  reflexivity.
Qed.

Lemma scrape2_loop_exhausted (d : Driver) (url pid : string) (max_retries : nat) :
  forall todo attempt n,
    (forall i, i < todo -> get_ok d (n + i) url && wait_ok d (S (n + i)) = false) ->
    let r := Script2.scrape_loop d url pid max_retries attempt todo n in
    result_of r = mkMinimal pid "-" "-" "-"
    /\ navs_of r = n + todo /\ navigations (trace_of r) = todo.
Proof.
  induction todo as [|todo IH]; intros attempt n Hfail; cbv zeta.
  - simpl. unfold result_of, navs_of, trace_of, ret; simpl. repeat split; lia.
  - rewrite scrape2_loop_step_failed
      by (specialize (Hfail 0); rewrite Nat.add_0_r in Hfail; apply Hfail; lia).
    destruct (IH (S attempt) (S n)) as (Hr & Hn & Ht).
    { intros i Hi. replace (S n + i) with (n + S i) by lia. apply Hfail. lia. }
    cbv zeta. unfold result_of, navs_of, trace_of in *; simpl.
    repeat split; [assumption | lia |].
    unfold navigations in *; simpl. now rewrite Ht.
Qed.

(** C9: when every one of the [max_retries] attempts of
    [scrape_name_value_wage] fails (the navigation raises or the wait times
    out), the record returned has "-" for name, value and wage and, as its
    first element, the player id read off the URL before the loop: the
    digits that follow "/player/" in the URL, and "-" exactly when no
    "/player/" of the URL is followed by a digit. *)
Theorem exhausted_retries_keep_player_id (d : Driver) (url : string)
  (max_retries n : nat) :
  (forall i, i < max_retries ->
     get_ok d (n + i) url && wait_ok d (S (n + i)) = false) ->
  let r := result_of (Script2.scrape_name_value_wage d url max_retries n) in
  r = mkMinimal (player_id_of url "-") "-" "-" "-"
  /\ navigations (trace_of (Script2.scrape_name_value_wage d url max_retries n))
     = max_retries
  /\ (m_ID r = "-" <->
      forall pre c rest,
        url = (pre ++ "/player/" ++ String c rest)%string -> isdigit c = false)
  /\ (m_ID r <> "-" ->
      exists pre rest,
        url = (pre ++ "/player/" ++ m_ID r ++ rest)%string
        /\ all_chars isdigit (m_ID r) = true
        /\ match rest with String x _ => isdigit x = false | EmptyString => True end).
Proof.
  intros Hfail. cbv zeta. unfold Script2.scrape_name_value_wage.
  destruct (scrape2_loop_exhausted d url (player_id_of url "-") max_retries
              max_retries 0 n Hfail) as (Hr & _ & Ht).
  rewrite Hr. split; [reflexivity|]. split; [assumption|].
  cbn [m_ID]. unfold player_id_of.
  destruct (search_player url) as [ds|] eqn:Hs.
  - destruct (search_player_some url ds Hs) as (pre & rest & Hurl & Hne & Hall & Hrest).
    split.
    + split.
      * intros Hds. now elim (digits_not_sentinel ds Hne Hall).
      * intros Hno. apply search_player_none in Hno. congruence.
    + intros _. exists pre, rest. auto.
  - split.
    + split; [intros _; now apply search_player_none | reflexivity].
    + intros H. now elim H.
Qed.

(** A browser that never loads the page, and a URL with a player id. *)
Lemma exhausted_retries_keep_player_id_witness :
  result_of
    (Script2.scrape_name_value_wage
       (Samples.browser (fun _ => false) (Text "") [])
       "https://sofifa.com/player/231747/kylian-mbappe/" 3 0)
  = mkMinimal "231747" "-" "-" "-".
Proof.
  exact (proj1 (exhausted_retries_keep_player_id
                  (Samples.browser (fun _ => false) (Text "") [])
                  "https://sofifa.com/player/231747/kylian-mbappe/" 3 0
                  (fun i _ => eq_refl))).
Defined.

(** A URL without a player id keeps the sentinel in the first place. *)
Example exhausted_retries_no_id :
  result_of
    (Script2.scrape_name_value_wage
       (Samples.browser (fun _ => false) (Text "") [])
       "https://sofifa.com/player/abc" 3 0)
  = mkMinimal "-" "-" "-" "-".
Proof. reflexivity. Qed.

(** ** The loop over the rows of the squad table *)

(** Only the main loop writes "Skipping row" warnings. *)
Lemma safe_get_loop_no_skip (d : Driver) (url : string) (retries : nat) :
  forall todo i n,
    skip_warnings (trace_of (Script1.safe_get_loop d url retries i todo n)) = 0.
Proof.
  induction todo as [|todo IH]; intros i n; [reflexivity|].
  rewrite safe_get_loop_step. destruct (get_ok d n url); [reflexivity|].
  cbv zeta. unfold trace_of at 1. cbn [snd]. apply IH.
Qed.

Lemma attempt_no_skip {L : Library} (d : Driver) (url : string) (n : nat) :
  skip_warnings (trace_of (Script1.attempt d url n)) = 0.
Proof.
  unfold Script1.attempt, bind.
  pose proof (safe_get_loop_no_skip d url 3 3 0 n) as Hsafe.
  fold (Script1.safe_get d url 3) in Hsafe.
  destruct (Script1.safe_get d url 3 n) as [[ok n1] l0].
  unfold trace_of in *; simpl in *.
  destruct ok; simpl; [|now rewrite app_nil_r].
  destruct (wait_ok d n1); simpl; [|now rewrite app_nil_r].
  destruct (Script1.is_not_found (page_source d n1)); simpl;
    [now rewrite skip_warnings_app, Hsafe|].
  destruct (file_ok d n1); simpl; [|now rewrite app_nil_r].
  destruct (Script1.extract_fields (page_source d n1)); simpl;
    now rewrite skip_warnings_app, Hsafe.
Qed.

Lemma scrape_loop_no_skip {L : Library} (d : Driver) (url : string) (max_retries : nat) :
  forall todo attempt_no n,
    skip_warnings (trace_of (Script1.scrape_loop d url max_retries attempt_no todo n)) = 0.
Proof.
  induction todo as [|todo IH]; intros attempt_no n; [reflexivity|].
  cbn [Script1.scrape_loop]. unfold bind at 1.
  pose proof (attempt_no_skip d url n) as Ha.
  destruct (Script1.attempt d url n) as [[e n1] l1].
  unfold trace_of in Ha; simpl in Ha.
  destruct e as [r| |].
  - unfold ret, trace_of; simpl. now rewrite app_nil_r.
  - specialize (IH (S attempt_no) n1).
    destruct (Script1.scrape_loop d url max_retries (S attempt_no) todo n1)
      as [[r n2] l2].
    unfold trace_of in *; simpl in *. now rewrite skip_warnings_app, Ha, IH.
  - specialize (IH (S attempt_no) n1). unfold bind, emit.
    destruct (Script1.scrape_loop d url max_retries (S attempt_no) todo n1)
      as [[r n2] l2].
    unfold trace_of in *; simpl in *. now rewrite skip_warnings_app, Ha.
Qed.

(** One row: a warning exactly when it is short; one record, with the
    fields of the row, exactly when it is well formed. *)
Lemma process_row_spec {L : Library} (d : Driver) (idx : nat) (row : node) (n : nat) :
  let r := Script1.process_row d idx row n in
  skip_warnings (trace_of r) = (if Listing.short row then 1 else 0)
  /\ map Listing.reference_of_record (result_of r)
     = if Listing.well_formed row then [Listing.reference_of_row row] else [].
Proof.
  cbv zeta. unfold Script1.process_row, Listing.well_formed, Listing.short,
    Listing.reference_of_row, Listing.name_anchor, Listing.cols.
  destruct (length (find_all (is_tag "td") row) <? 8); [split; reflexivity|].
  cbn [negb andb].
  destruct (find (is_tag "a") (nth 1 (find_all (is_tag "td") row) (Text "")))
    as [name_tag|]; [|split; reflexivity].
  destruct (attr name_tag "href") as [href|]; [|split; reflexivity].
  unfold bind.
  pose proof (scrape_loop_no_skip d ("https://sofifa.com" ++ href) 3 3 0 n) as Hs.
  fold (Script1.scrape_player_profile d ("https://sofifa.com" ++ href) 3) in Hs.
  destruct (Script1.scrape_player_profile d ("https://sofifa.com" ++ href) 3 n)
    as [[r n1] l1].
  unfold trace_of, result_of in *; simpl in *.
  split; [now rewrite app_nil_r | reflexivity].
Qed.

Lemma process_rows_spec {L : Library} (d : Driver) :
  forall rows idx n,
    let r := Script1.process_rows d idx rows n in
    skip_warnings (trace_of r) = length (filter Listing.short rows)
    /\ map Listing.reference_of_record (result_of r)
       = map Listing.reference_of_row (filter Listing.well_formed rows).
Proof.
  induction rows as [|row rows IH]; intros idx n; cbv zeta; [split; reflexivity|].
  cbn [Script1.process_rows]. unfold bind.
  destruct (process_row_spec d idx row n) as [Hskip Hrec].
  destruct (Script1.process_row d idx row n) as [[here n1] l1].
  destruct (IH (S idx) n1) as [Hskips Hrecs].
  destruct (Script1.process_rows d (S idx) rows n1) as [[later n2] l2].
  unfold trace_of, result_of, ret in *; simpl in *.
  rewrite app_nil_r, skip_warnings_app, Hskip, Hskips, map_app, Hrec, Hrecs.
  split.
  - destruct (Listing.short row); reflexivity.
  - destruct (Listing.well_formed row); reflexivity.
Qed.

(** A row is not both short and well formed, and a row with five columns
    is short. *)
Lemma short_and_well_formed (rows : list node) :
  length (filter Listing.short rows) + length (filter Listing.well_formed rows)
  <= length rows.
Proof.
  induction rows as [|row rows IH]; simpl; [lia|].
  unfold Listing.well_formed at 1.
  destruct (Listing.short row); simpl; [lia|].
  destruct (match Listing.name_anchor row with
            | Some a => match attr a "href" with Some _ => true | None => false end
            | None => false
            end); simpl; lia.
Qed.

Lemma five_columns_short (rows : list node) :
  length (filter (fun row => length (Listing.cols row) =? 5) rows)
  <= length (filter Listing.short rows).
Proof.
  induction rows as [|row rows IH]; simpl; [lia|].
  unfold Listing.short at 1.
  destruct (Nat.eqb_spec (length (Listing.cols row)) 5) as [->|_]; simpl.
  - lia.
  - destruct (length (Listing.cols row) <? 8); simpl; lia.
Qed.

(** C7: in the loop over the rows of the table every row with fewer than
    eight columns gets one "Skipping row" warning and the loop goes on to
    the rows after it; every well-formed row (eight columns or more and, in
    the second one, an anchor with an [href]) gives one record with the
    fields of the row; so four rows of which three are well formed and one
    has five columns give three records and one warning. *)
Theorem short_rows_are_skipped {L : Library} (d : Driver) (idx : nat)
  (rows : list node) (n : nat) :
  let r := Script1.process_rows d idx rows n in
  skip_warnings (trace_of r) = length (filter Listing.short rows)
  /\ map Listing.reference_of_record (result_of r)
     = map Listing.reference_of_row (filter Listing.well_formed rows)
  /\ length (result_of r) = length (filter Listing.well_formed rows)
  /\ (length rows = 4 ->
      length (filter Listing.well_formed rows) = 3 ->
      length (filter (fun row => length (Listing.cols row) =? 5) rows) = 1 ->
      length (result_of r) = 3 /\ skip_warnings (trace_of r) = 1).
Proof.
  cbv zeta. destruct (process_rows_spec d rows idx n) as [Hskip Hrec].
  assert (Hlen : length (result_of (Script1.process_rows d idx rows n))
                 = length (filter Listing.well_formed rows)).
  { rewrite <- (length_map Listing.reference_of_record), Hrec. apply length_map. }
  repeat split; try assumption.
  - lia.
  - pose proof (short_and_well_formed rows). pose proof (five_columns_short rows). lia.
Qed.

(** The scenario of the spec, run: the second of four rows has five
    columns. *)
Example scenario_three_records_one_warning :
  let r := Script1.process_rows (L := Samples.stub_library)
             (Samples.serve Samples.page_without_ld) 1 Samples.scenario_rows 0 in
  map ID (result_of r) = ["231747"; "238794"; "252371"]
  /\ filter is_skip (trace_of r) = [SkipRow 2].
Proof. split; reflexivity. Qed.

(** ** The end of a run *)

Lemma written_app (l1 l2 : list event) : written (l1 ++ l2) = written l1 ++ written l2.
Proof. unfold written. apply flat_map_app. Qed.

(** [export_all_formats] starts with the Excel file and goes through the
    three formats when no writer raises. *)
Lemma export_all_formats_written (d : Driver) (t : table) :
  (exists rest, written (Script1.export_all_formats d t) = Xlsx :: rest)
  /\ (write_ok d Xlsx = true -> write_ok d Txt = true ->
      Script1.export_all_formats d t = [Write Xlsx t; Write Txt t; Write Json t]).
Proof.
  unfold Script1.export_all_formats. split.
  - simpl. eauto.
  - intros -> ->. reflexivity.
Qed.

(** The main block of Script_1 ends in its [finally], with the frame made
    of [all_players_data]. *)
Lemma main1_ends_with_export {L : Library} (d : Driver) (team_url : string)
  (fuel : nat) (all : list FullRecord) (tr : list event) :
  Script1.main d team_url fuel = Some (all, tr) ->
  exists pre n, tr = pre ++ Script1.finalize d n all.
Proof.
  unfold Script1.main.
  destruct (Script1.safe_get d team_url 3 0) as [[ok n] l0].
  destruct ok; simpl.
  - destruct (scroll_to_bottom (scroll_height d n) fuel); [|discriminate].
    destruct (wait_ok d n); simpl.
    + destruct (Script1.process_rows d 1 (select_rows (page_source d n)) n)
        as [[rows n'] l1].
      intros [= <- <-]. exists (l0 ++ l1), n'. now rewrite <- app_assoc.
    + intros [= <- <-]. exists (l0 ++ [Fatal]), n. now rewrite <- app_assoc.
  - intros [= <- <-]. exists (l0 ++ [Fatal]), n. now rewrite <- app_assoc.
Qed.

(** The records of a run of Script_1 are those of the rows of the team
    page, when there are any. *)
Lemma main1_records {L : Library} (d : Driver) (team_url : string)
  (fuel : nat) (all : list FullRecord) (tr : list event) :
  Script1.main d team_url fuel = Some (all, tr) ->
  all = []
  \/ exists n,
       map Listing.reference_of_record all
       = map Listing.reference_of_row
           (filter Listing.well_formed (select_rows (page_source d n))).
Proof.
  unfold Script1.main.
  destruct (Script1.safe_get d team_url 3 0) as [[ok n] l0].
  destruct ok; simpl; [|intros [= <- _]; now left].
  destruct (scroll_to_bottom (scroll_height d n) fuel); [|discriminate].
  destruct (wait_ok d n); simpl; [|intros [= <- _]; now left].
  destruct (process_rows_spec d (select_rows (page_source d n)) 1 n) as [_ Hrec].
  destruct (Script1.process_rows d 1 (select_rows (page_source d n)) n)
    as [[rows n'] l1].
  intros [= <- _]. right. exists n. exact Hrec.
Qed.

(** The run of Script_1 ends when the scrolling of the team page does, or
    when the team page cannot be opened. *)
Lemma main1_terminates {L : Library} (d : Driver) (team_url : string) :
  let r0 := Script1.safe_get d team_url 3 0 in
  (result_of r0 = false \/
   exists m, scroll_height d (navs_of r0) (S m) = scroll_height d (navs_of r0) m) ->
  exists fuel, forall fuel', fuel <= fuel' ->
    exists all tr, Script1.main d team_url fuel' = Some (all, tr).
Proof.
  cbv zeta. unfold Script1.main.
  destruct (Script1.safe_get d team_url 3 0) as [[ok n] l0].
  unfold result_of, navs_of; simpl.
  destruct ok; simpl.
  - intros [H|[m Hm]]; [discriminate|].
    destruct (scroll_stops_exists (scroll_height d n) m 0 Hm) as (k & _ & Hk).
    exists k. intros fuel' Hfuel.
    assert (Hrun : scroll_to_bottom (scroll_height d n) fuel' = Some k)
      by (apply scroll_loop_iff; now split).
    rewrite Hrun.
    destruct (wait_ok d n); simpl; [|eauto].
    destruct (Script1.process_rows d 1 (select_rows (page_source d n)) n)
      as [[rows n'] l1].
    eauto.
  - intros _. exists 0. eauto.
Qed.

(** The search for the player URLs writes none of the output files. *)
Lemma team_loop_writes_nothing (d : Driver) (team_url : string) (fuel max_retries : nat) :
  forall todo attempt n,
    written (trace_of (Script2.team_loop d team_url fuel max_retries attempt todo n)) = [].
Proof.
  induction todo as [|todo IH]; intros attempt n; [reflexivity|].
  cbn [Script2.team_loop]. unfold bind at 1.
  destruct (Script2.team_attempt d team_url fuel n) as [[r n1] l1] eqn:Ha.
  assert (Hl1 : written l1 = []).
  { revert Ha. unfold Script2.team_attempt, bind, driver_get, navs, ret.
    destruct (get_ok d n team_url); simpl.
    - destruct (scroll_to_bottom (scroll_height d (S n)) fuel); simpl;
        [destruct (file_ok d (S n)); simpl; [destruct (wait_ok d (S n)); simpl|]|];
        intros [= _ _ <-]; reflexivity.
    - intros [= _ _ <-]. reflexivity. }
  destruct r as [[urls|]|].
  - unfold ret, trace_of; simpl. now rewrite app_nil_r.
  - specialize (IH (S attempt) n1). unfold bind, emit.
    destruct (Script2.team_loop d team_url fuel max_retries (S attempt) todo n1)
      as [[r n2] l2].
    unfold trace_of in *; simpl in *. now rewrite written_app, Hl1.
  - unfold ret, trace_of; simpl. now rewrite app_nil_r.
Qed.

(** One record for every URL, in the order of the URLs, each with the
    player id of its URL. *)
Lemma scrape_all_ids (d : Driver) :
  forall player_urls n,
    map m_ID (result_of (Script2.scrape_all d player_urls n))
    = map (fun url => player_id_of url "-") player_urls.
Proof.
  induction player_urls as [|url rest IH]; intros n; [reflexivity|].
  cbn [Script2.scrape_all]. unfold bind.
  assert (Hid : forall todo attempt k,
             m_ID (result_of (Script2.scrape_loop d url (player_id_of url "-") 3
                                attempt todo k)) = player_id_of url "-").
  { induction todo as [|todo IHt]; intros attempt k; [reflexivity|].
    cbn [Script2.scrape_loop]. unfold bind, driver_get, navs, emit.
    destruct (get_ok d k url && wait_ok d (S k)).
    - destruct (Script2.parse_player (page_source d (S k))) as [[name value] wage].
      reflexivity.
    - specialize (IHt (S attempt) (S k)).
      destruct (Script2.scrape_loop d url (player_id_of url "-") 3 (S attempt) todo (S k))
        as [[r n'] l].
      exact IHt. }
  specialize (Hid 3 0 n). fold (Script2.scrape_name_value_wage d url 3) in Hid.
  destruct (Script2.scrape_name_value_wage d url 3 n) as [[r n1] l1].
  specialize (IH n1).
  destruct (Script2.scrape_all d rest n1) as [[later n2] l2].
  unfold result_of, ret in *; simpl in *. now rewrite Hid, IH.
Qed.

(** What a run of Script_2 that ends has done: without a player URL it
    leaves with no file written; otherwise it has one record for every URL
    and ends with the writing of the files. *)
Lemma main2_spec (d : Driver) (team_url : string) (fuel : nat)
  (results : list MinimalRecord) (tr : list event) :
  Script2.main d team_url fuel = Some (results, tr) ->
  exists player_urls,
    result_of (Script2.get_player_urls_from_team d team_url fuel 3 0) = Some player_urls
    /\ map m_ID results = map (fun url => player_id_of url "-") player_urls
    /\ (player_urls = [] -> written tr = [])
    /\ (player_urls <> [] -> exists pre, tr = pre ++ Script2.save_files d results).
Proof.
  unfold Script2.main.
  pose proof (team_loop_writes_nothing d team_url fuel 3 3 0 0) as Hw.
  fold (Script2.get_player_urls_from_team d team_url fuel 3) in Hw.
  destruct (Script2.get_player_urls_from_team d team_url fuel 3 0) as [[found n] l0].
  unfold trace_of, result_of in *; simpl in *.
  destruct found as [[|url rest]|]; [| |discriminate].
  - intros [= <- <-]. exists []. repeat split.
    + intros _. now rewrite written_app, Hw.
    + intros H. now elim H.
  - pose proof (scrape_all_ids d (url :: rest) n) as Hids.
    destruct (Script2.scrape_all d (url :: rest) n) as [[res n'] l1].
    unfold result_of in Hids; simpl in Hids.
    intros [= <- <-]. exists (url :: rest). repeat split.
    + exact Hids.
    + discriminate.
    + intros _. destruct res as [|r res]; [discriminate|].
      exists (l0 ++ l1 ++ [Quit]). now rewrite <- !app_assoc.
Qed.

(** C3, as the code has it: a run of Script_1 that ends, ends in its
    [finally] with [export_all_formats] on the sorted frame, whatever was
    collected and also with no record at all (the Excel file is attempted
    first, and the three files are written one after the other when no
    writer raises); the run ends when the team page cannot be opened, with
    an empty frame, and when the scrolling of the team page ends.  A run of
    Script_2 writes its three files only when it has a record: with no
    player URL found it leaves without writing a file. *)
Theorem export_at_the_end {L : Library} (d : Driver) (team_url : string) :
  (forall fuel all tr,
     Script1.main d team_url fuel = Some (all, tr) ->
     let t := FullTable (sort_values all) in
     (exists pre, tr = pre ++ Script1.export_all_formats d t)
     /\ (exists rest, written (Script1.export_all_formats d t) = Xlsx :: rest)
     /\ (write_ok d Xlsx = true -> write_ok d Txt = true ->
         exists pre, tr = pre ++ [Write Xlsx t; Write Txt t; Write Json t]))
  /\ (result_of (Script1.safe_get d team_url 3 0) = false ->
      forall fuel, exists tr, Script1.main d team_url fuel = Some ([], tr))
  /\ ((exists m, scroll_height d (navs_of (Script1.safe_get d team_url 3 0)) (S m)
                 = scroll_height d (navs_of (Script1.safe_get d team_url 3 0)) m) ->
      exists fuel all tr, Script1.main d team_url fuel = Some (all, tr))
  /\ (forall fuel results tr,
        Script2.main d team_url fuel = Some (results, tr) ->
        (results = [] -> written tr = [])
        /\ (results <> [] -> exists pre, tr = pre ++ Script2.save_files d results)).
Proof.
  split; [|split; [|split]].
  - intros fuel all tr Hmain. cbv zeta.
    destruct (main1_ends_with_export d team_url fuel all tr Hmain) as (pre & n & ->).
    unfold Script1.finalize.
    destruct (export_all_formats_written d (FullTable (sort_values all))) as [Hx Hall].
    split; [|split].
    + eexists. now rewrite app_assoc.
    + exact Hx.
    + intros H1 H2. rewrite (Hall H1 H2). eexists. now rewrite app_assoc.
  - unfold Script1.main.
    destruct (Script1.safe_get d team_url 3 0) as [[ok n] l0].
    unfold result_of; simpl. intros -> fuel. simpl. eauto.
  - intros Hm.
    destruct (main1_terminates d team_url (or_intror Hm)) as (fuel & Hfuel).
    exists fuel. apply Hfuel. lia.
  - intros fuel results tr Hmain.
    destruct (main2_spec d team_url fuel results tr Hmain)
      as (urls & _ & Hids & Hnone & Hsome).
    assert (Hlen : length results = length urls).
    { rewrite <- (length_map m_ID), Hids. apply length_map. }
    split.
    + intros ->. apply Hnone. now destruct urls.
    + intros Hne. apply Hsome. intros ->. now destruct results.
Qed.

(** C3 fails as it is stated: a team page without a player link.  Script_2
    finds no URL, says so, closes the browser and leaves: the run ends with
    no record and none of the three files is written. *)
Lemma script2_writes_nothing_without_players :
  Script2.main (Samples.serve (Samples.listing []))
    "https://sofifa.com/team/243/real-madrid/" 1
  = Some ([], [Navigate "https://sofifa.com/team/243/real-madrid/" true;
               NoPlayers; Quit])
  /\ written [Navigate "https://sofifa.com/team/243/real-madrid/" true;
              NoPlayers; Quit] = []
  /\ ~ (forall (d : Driver) (team_url : string) (fuel : nat) results tr,
          Script2.main d team_url fuel = Some (results, tr) ->
          In Xlsx (written tr) /\ In Txt (written tr) /\ In Json (written tr)).
Proof.
  split; [reflexivity|]. split; [reflexivity|].
  intros H.
  destruct (H (Samples.serve (Samples.listing []))
              "https://sofifa.com/team/243/real-madrid/" 1 _ _ eq_refl) as [Hx _].
  exact Hx.
Qed.

(** Script_1 on the same page: the frame is empty and the three files are
    written. *)
Example script1_exports_empty_frame :
  option_map (fun r => written (snd r))
    (Script1.main (L := Samples.stub_library) (Samples.serve (Samples.listing []))
       "https://sofifa.com/team/243/real-madrid/" 1)
  = Some [Xlsx; Txt; Json].
Proof. reflexivity. Qed.

(** C10, as the code has it: the loop over the rows makes one record for
    every row that has eight columns or more and, in the second one, an
    anchor with an [href], in the order of the rows and with no look at the
    URLs met before, so a row that comes twice gives two records; these
    records are the frame that the run sorts and exports. *)
Theorem one_record_per_well_formed_row {L : Library} (d : Driver) :
  (forall idx rows n,
     map Listing.reference_of_record (result_of (Script1.process_rows d idx rows n))
     = map Listing.reference_of_row (filter Listing.well_formed rows))
  /\ (forall idx row n,
        Listing.well_formed row = true ->
        map Listing.reference_of_record
          (result_of (Script1.process_rows d idx [row; row] n))
        = [Listing.reference_of_row row; Listing.reference_of_row row])
  /\ (forall team_url fuel all tr,
        Script1.main d team_url fuel = Some (all, tr) ->
        (all = []
         \/ exists n,
              map Listing.reference_of_record all
              = map Listing.reference_of_row
                  (filter Listing.well_formed (select_rows (page_source d n))))
        /\ exists pre,
             tr = pre ++ Script1.export_all_formats d (FullTable (sort_values all))).
Proof.
  split; [|split].
  - intros idx rows n. apply (process_rows_spec d rows idx n).
  - intros idx row n Hwf.
    rewrite (proj2 (process_rows_spec d [row; row] idx n)). simpl.
    now rewrite Hwf.
  - intros team_url fuel all tr Hmain. split.
    + exact (main1_records d team_url fuel all tr Hmain).
    + destruct (main1_ends_with_export d team_url fuel all tr Hmain) as (pre & n & ->).
      unfold Script1.finalize. eexists. now rewrite app_assoc.
Qed.

(** C10 fails as it is stated: a row with eight columns whose anchor has no
    [href].  [name_tag['href']] raises a [KeyError], the handler of the
    loop catches it and the row gives no record. *)
Lemma anchor_without_href_gives_no_record :
  Listing.has_anchor Samples.row_without_href = true
  /\ Script1.process_rows (L := Samples.stub_library)
       (Samples.serve Samples.page_without_ld) 1 [Samples.row_without_href] 0
     = ([], 0, [RowFailed 1])
  /\ ~ (forall (L : Library) (d : Driver) idx rows n,
          length (result_of (Script1.process_rows d idx rows n))
          = length (filter Listing.has_anchor rows)).
Proof.
  split; [reflexivity|]. split; [reflexivity|].
  intros H.
  specialize (H Samples.stub_library (Samples.serve Samples.page_without_ld) 1
                [Samples.row_without_href] 0).
  discriminate H.
Qed.

(** Two rows for one player give two records. *)
Example duplicate_rows_give_duplicate_records :
  map ID
    (result_of
       (Script1.process_rows (L := Samples.stub_library)
          (Samples.serve Samples.page_without_ld) 1
          [Samples.player_row "/player/231747/kylian-mbappe/" "K. Mbappe";
           Samples.player_row "/player/231747/kylian-mbappe/" "K. Mbappe"] 0))
  = ["231747"; "231747"].
Proof. reflexivity. Qed.

(** ** The order of the rows *)

Lemma insert_by_ID_perm (r : FullRecord) (l : list FullRecord) :
  Permutation (Samples.insert_by_ID r l) (r :: l).
Proof.
  induction l as [|x l IH]; simpl; [reflexivity|].
  destruct (String.leb (ID r) (ID x)); [reflexivity|].
  rewrite IH. apply perm_swap.
Qed.

Lemma insert_by_ID_hd (x r : FullRecord) (l : list FullRecord) :
  ID_le x r -> HdRel ID_le x l ->
  HdRel ID_le x (Samples.insert_by_ID r l).
Proof.
  intros Hxr Hhd. destruct l as [|y l]; simpl; [now constructor|].
  destruct (String.leb (ID r) (ID y)); constructor; [assumption|].
  now inversion Hhd.
Qed.

Lemma insert_by_ID_sorted (r : FullRecord) (l : list FullRecord) :
  Sorted ID_le l -> Sorted ID_le (Samples.insert_by_ID r l).
Proof.
  induction 1 as [|x l Hsorted IH Hhd]; simpl.
  - repeat constructor.
  - destruct (String.leb (ID r) (ID x)) eqn:Hle.
    + constructor; [now constructor | now constructor].
    + constructor; [assumption|].
      apply insert_by_ID_hd; [|assumption].
      unfold ID_le. destruct (String.leb_total (ID x) (ID r)); congruence.
Qed.

(** The sort of the test library does what pandas documents. *)
Lemma sort_by_ID_sorts : sorts_by_ID Samples.sort_by_ID.
Proof.
  intros l. induction l as [|r l [Hsorted Hperm]]; simpl.
  - split; constructor.
  - split; [now apply insert_by_ID_sorted|].
    rewrite insert_by_ID_perm. now constructor.
Qed.

(** With a [sort_values] that does what pandas documents, the frame that
    Script_1 exports holds the records collected, in ascending order of
    their ID. *)
Lemma main1_rows_ascending {L : Library} (d : Driver) (team_url : string)
  (fuel : nat) (all : list FullRecord) (tr : list event) :
  sorts_by_ID sort_values ->
  Script1.main d team_url fuel = Some (all, tr) ->
  exists pre rows,
    tr = pre ++ Script1.export_all_formats d (FullTable rows)
    /\ Sorted ID_le rows /\ Permutation rows all.
Proof.
  intros Hsort Hmain.
  destruct (main1_ends_with_export d team_url fuel all tr Hmain) as (pre & n & ->).
  destruct (Hsort all) as [Hsorted Hperm].
  unfold Script1.finalize. eexists. exists (sort_values all).
  split; [now rewrite app_assoc | now split].
Qed.

(** Script_2 writes its records in the order in which the URLs were
    visited, which is the order in which they were found. *)
Lemma main2_rows_in_arrival_order (d : Driver) (team_url : string)
  (fuel : nat) (results : list MinimalRecord) (tr : list event) :
  Script2.main d team_url fuel = Some (results, tr) ->
  results <> [] ->
  exists player_urls pre,
    result_of (Script2.get_player_urls_from_team d team_url fuel 3 0) = Some player_urls
    /\ map m_ID results = map (fun url => player_id_of url "-") player_urls
    /\ tr = pre ++ Script2.save_files d results.
Proof.
  intros Hmain Hne.
  destruct (main2_spec d team_url fuel results tr Hmain)
    as (urls & Hfound & Hids & _ & Hsome).
  destruct Hsome as [pre Htr].
  - intros ->. destruct results; [now elim Hne | discriminate].
  - exists urls, pre. auto.
Qed.

(** ** The order of rows of equal ID *)

Lemma leb_refl (s : string) : String.leb s s = true.
Proof. now destruct (String.leb_total s s). Qed.

(** The insertion sort is stable: rows of one ID stay as they came. *)
Lemma insert_by_ID_rows_with_ID (k : string) (r : FullRecord) (l : list FullRecord) :
  rows_with_ID k (Samples.insert_by_ID r l) = rows_with_ID k (r :: l).
Proof.
  unfold rows_with_ID.
  induction l as [|x l IH]; simpl; [reflexivity|].
  destruct (String.leb (ID r) (ID x)) eqn:Hle; simpl; [reflexivity|].
  rewrite IH. simpl.
  destruct (String.eqb_spec (ID r) k) as [Hr|Hr];
    destruct (String.eqb_spec (ID x) k) as [Hx|Hx]; try reflexivity.
  rewrite Hr, Hx, leb_refl in Hle. discriminate.
Qed.

Lemma sort_by_ID_stable (k : string) (l : list FullRecord) :
  rows_with_ID k (Samples.sort_by_ID l) = rows_with_ID k l.
Proof.
  induction l as [|r l IH]; simpl; [reflexivity|].
  rewrite insert_by_ID_rows_with_ID. unfold rows_with_ID in *. simpl.
  now rewrite IH.
Qed.

Lemma reversing_sort_sorts : sorts_by_ID Samples.reversing_sort.
Proof.
  intros l. unfold Samples.reversing_sort.
  destruct (sort_by_ID_sorts (rev l)) as [Hsorted Hperm].
  split; [assumption|]. rewrite Hperm. symmetry. apply Permutation_rev.
Qed.

(** C6, as the code has it: with a [sort_values] that does what pandas
    documents for the call of the source (ascending order of the key, the
    rows kept), the frame that a run of Script_1 exports holds the records
    collected in ascending order of their ID, compared as strings; a run of
    Script_2 writes one record for every URL in the order in which the URLs
    were found and visited, with no sorting. *)
Theorem rows_ascending_or_in_arrival_order {L : Library} (d : Driver)
  (team_url : string) :
  sorts_by_ID sort_values ->
  (forall fuel all tr,
     Script1.main d team_url fuel = Some (all, tr) ->
     exists pre rows,
       tr = pre ++ Script1.export_all_formats d (FullTable rows)
       /\ Sorted ID_le rows /\ Permutation rows all)
  /\ (forall fuel results tr,
        Script2.main d team_url fuel = Some (results, tr) ->
        results <> [] ->
        exists player_urls pre,
          result_of (Script2.get_player_urls_from_team d team_url fuel 3 0)
          = Some player_urls
          /\ map m_ID results = map (fun url => player_id_of url "-") player_urls
          /\ tr = pre ++ Script2.save_files d results).
Proof.
  intros Hsort. split.
  - intros fuel all tr Hmain. now apply (main1_rows_ascending d team_url fuel).
  - intros fuel results tr Hmain Hne.
    now apply (main2_rows_in_arrival_order d team_url fuel).
Qed.

(** The squad of the samples with the insertion sort for [sort_values]:
    the frame exported is in ascending order of the ID. *)
Lemma rows_ascending_or_in_arrival_order_witness :
  exists pre rows,
    snd (match Script1.main (L := Samples.stub_library)
                 (Samples.serve (Samples.listing Samples.squad_rows))
                 "https://sofifa.com/team/243/real-madrid/" 1 with
         | Some r => r
         | None => ([], [])
         end)
    = pre ++ Script1.export_all_formats
               (Samples.serve (Samples.listing Samples.squad_rows)) (FullTable rows)
    /\ Sorted ID_le rows.
Proof.
  destruct (proj1 (@rows_ascending_or_in_arrival_order Samples.stub_library
                     (Samples.serve (Samples.listing Samples.squad_rows))
                     "https://sofifa.com/team/243/real-madrid/" sort_by_ID_sorts)
              1 _ _ eq_refl) as (pre & rows & Htr & Hsorted & _).
  exists pre, rows. split; assumption.
Defined.

(** C6 fails as it is stated: nothing in the call [df.sort_values(by="ID")]
    makes the sort a stable one.  On the squad of the samples, with a
    [sort_values] that sorts as documented, the frame exported is in
    ascending order of the ID and has the ninth row of the page before the
    second one, which has the same ID. *)
Lemma sort_values_may_swap_equal_ids :
  sorts_by_ID Samples.reversing_sort
  /\ (exists all tr,
        Script1.main (L := Samples.reversing_library)
          (Samples.serve (Samples.listing Samples.squad_rows))
          "https://sofifa.com/team/243/real-madrid/" 1 = Some (all, tr)
        /\ map Name (rows_with_ID "101" all) = ["B"; "B again"]
        /\ map Name (rows_with_ID "101" (Samples.reversing_sort all))
           = ["B again"; "B"]
        /\ In (Write Xlsx (FullTable (Samples.reversing_sort all))) tr)
  /\ ~ (forall (L : Library) (d : Driver) team_url fuel all tr k,
          sorts_by_ID sort_values ->
          Script1.main d team_url fuel = Some (all, tr) ->
          rows_with_ID k (sort_values all) = rows_with_ID k all).
Proof.
  split; [apply reversing_sort_sorts|]. split.
  - eexists. eexists. split; [reflexivity|].
    split; [reflexivity|]. split; [reflexivity|].
    vm_compute. tauto.
  - intros H.
    specialize (H Samples.reversing_library
                  (Samples.serve (Samples.listing Samples.squad_rows))
                  "https://sofifa.com/team/243/real-madrid/" 1 _ _ "101"
                  reversing_sort_sorts eq_refl).
    apply (f_equal (map Name)) in H. vm_compute in H. discriminate H.
Qed.

(** ** The theorems on the stubs and pages of the samples *)

(** [safe_get] on the stub that succeeds on its second attempt. *)
Lemma safe_get_retry_bound_witness :
  result_of (Script1.safe_get (Samples.browser (fun n => n =? 1) (Text "") []) "u" 3 0)
  = true
  /\ navigations
       (trace_of (Script1.safe_get (Samples.browser (fun n => n =? 1) (Text "") []) "u" 3 0))
     = 2.
Proof.
  exact (proj1 (proj2 (proj2
           (safe_get_retry_bound (Samples.browser (fun n => n =? 1) (Text "") []) "u" 0)))
           eq_refl eq_refl).
Defined.

(** The loop on a page that grows twice breaks after three iterations. *)
Lemma scroll_to_bottom_stops_when_stable_witness :
  scroll_stops (Samples.grows_until 1) (Samples.grows_until 1 0) 1 3 /\ 3 <= 5.
Proof.
  exact (proj1 (proj1 (proj2 scroll_to_bottom_stops_when_stable)
                  (Samples.grows_until 1) 5 3) eq_refl).
Defined.

(** The list of the spec with three URLs that differ. *)
Lemma unique_urls_first_seen_order_witness :
  Script2.unique_urls ["A"; "B"; "A"; "C"; "B"] = ["A"; "B"; "C"].
Proof.
  apply (proj2 unique_urls_first_seen_order); discriminate.
Defined.

(** The four rows of the scenario. *)
Lemma short_rows_are_skipped_witness :
  length (result_of (Script1.process_rows (L := Samples.stub_library)
                       (Samples.serve Samples.page_without_ld) 1 Samples.scenario_rows 0))
  = 3
  /\ skip_warnings
       (trace_of (Script1.process_rows (L := Samples.stub_library)
                    (Samples.serve Samples.page_without_ld) 1 Samples.scenario_rows 0))
     = 1.
Proof.
  exact (proj2 (proj2 (proj2
           (@short_rows_are_skipped Samples.stub_library
              (Samples.serve Samples.page_without_ld) 1 Samples.scenario_rows 0)))
           eq_refl eq_refl eq_refl).
Defined.

(** A row that comes twice. *)
Lemma one_record_per_well_formed_row_witness :
  map ID
    (result_of
       (Script1.process_rows (L := Samples.stub_library)
          (Samples.serve Samples.page_without_ld) 1
          [Samples.player_row "/player/231747/kylian-mbappe/" "K. Mbappe";
           Samples.player_row "/player/231747/kylian-mbappe/" "K. Mbappe"] 0))
  = ["231747"; "231747"].
Proof.
  exact (f_equal (map Listing.r_id)
           (proj1 (proj2 (@one_record_per_well_formed_row Samples.stub_library
                            (Samples.serve Samples.page_without_ld)))
              1 (Samples.player_row "/player/231747/kylian-mbappe/" "K. Mbappe") 0
              eq_refl)).
Defined.

(** Script_1 on a team page without a row: the run ends with the three
    files of the empty frame. *)
Lemma export_at_the_end_witness :
  exists pre,
    [Navigate "https://sofifa.com/team/243/real-madrid/" true; Quit;
     Write Xlsx (FullTable []); Write Txt (FullTable []); Write Json (FullTable [])]
    = pre ++ [Write Xlsx (FullTable []); Write Txt (FullTable []);
              Write Json (FullTable [])].
Proof.
  exact (proj2 (proj2
           (proj1 (@export_at_the_end Samples.stub_library
                     (Samples.serve (Samples.listing []))
                     "https://sofifa.com/team/243/real-madrid/")
              1 [] _ eq_refl))
           eq_refl eq_refl).
Defined.

(** ** The string functions on examples *)

Example strip_example : strip "  Right foot  " = "Right foot".
Proof. reflexivity. Qed.

Example replace_example :
  replace "Preferred footRight" "Preferred foot" "" = "Right"
  /\ replace "aaa" "aa" "" = "a"
  /\ replace "abc" "" "" = "abc".
Proof. repeat split; reflexivity. Qed.

Example contains_example :
  contains "Page not found" "Page not found - SoFIFA" = true
  /\ contains "Value" "Wage" = false.
Proof. split; reflexivity. Qed.

Example search_player_example :
  search_player "https://sofifa.com/player/231747/kylian-mbappe/250001/" = Some "231747"
  /\ search_player "/player/x/player/77" = Some "77"
  /\ search_player "https://sofifa.com/team/243/" = None.
Proof. repeat split; reflexivity. Qed.

Example search_duration_example :
  search_duration "Real Madrid 2024 ~ 2029" = Some "2024 ~ 2029"
  /\ search_duration "12024~20291" = Some "2024~2029"
  /\ search_duration "Jun 30, 2029" = None.
Proof. repeat split; reflexivity. Qed.

Example split_ws_example : split_ws " pos  pos27 " = ["pos"; "pos27"].
Proof. reflexivity. Qed.

(* ================================================================== *)
(** * More of the two scripts *)

(** ** How many pages a call requests *)

Lemma navigations_cons (e : event) (l : list event) :
  navigations (e :: l) = (if is_navigate e then 1 else 0) + navigations l.
Proof. unfold navigations. simpl. now destruct (is_navigate e). Qed.

Lemma navigations_nil : navigations [] = 0.
Proof. reflexivity. Qed.

(** Counting the navigations of a trace put together from pieces. *)
Ltac count_navigations :=
  rewrite ?app_nil_r, ?navigations_app, ?navigations_cons, ?navigations_nil;
  cbn [is_navigate]; try lia.

(** The counter of the stub moves with the navigations of the trace, and
    [safe_get] makes at most [retries] of them. *)
Lemma safe_get_loop_navs (d : Driver) (url : string) (retries : nat) :
  forall todo i n,
    let r := Script1.safe_get_loop d url retries i todo n in
    navs_of r = n + navigations (trace_of r) /\ navigations (trace_of r) <= todo.
Proof.
  induction todo as [|todo IH]; intros i n; cbv zeta.
  - unfold navs_of, trace_of, navigations; simpl. lia.
  - rewrite safe_get_loop_step. destruct (get_ok d n url).
    + unfold navs_of, trace_of, navigations; simpl. lia.
    + destruct (IH (S i) (S n)) as [Hn Hle].
      cbv zeta. unfold navs_of, trace_of, navigations in *; simpl in *. lia.
Qed.

Lemma attempt_navs {L : Library} (d : Driver) (url : string) (n : nat) :
  let r := Script1.attempt d url n in
  navs_of r = n + navigations (trace_of r) /\ navigations (trace_of r) <= 3.
Proof.
  cbv zeta. unfold Script1.attempt, bind.
  destruct (safe_get_loop_navs d url 3 3 0 n) as [Hn Hle].
  fold (Script1.safe_get d url 3) in Hn, Hle.
  destruct (Script1.safe_get d url 3 n) as [[ok n1] l0].
  unfold navs_of, trace_of in *; simpl in *.
  destruct ok; simpl; [|count_navigations].
  destruct (wait_ok d n1); simpl; [|count_navigations].
  destruct (Script1.is_not_found (page_source d n1)); simpl; [count_navigations|].
  destruct (file_ok d n1); simpl; [|count_navigations].
  destruct (Script1.extract_fields (page_source d n1)); simpl; count_navigations.
Qed.

Lemma scrape_loop_navs {L : Library} (d : Driver) (url : string) (max_retries : nat) :
  forall todo attempt_no n,
    let r := Script1.scrape_loop d url max_retries attempt_no todo n in
    navs_of r = n + navigations (trace_of r)
    /\ navigations (trace_of r) <= 3 * todo.
Proof.
  induction todo as [|todo IH]; intros attempt_no n.
  - unfold navs_of, trace_of, navigations; simpl. lia.
  - cbn [Script1.scrape_loop]. unfold bind, emit.
    destruct (attempt_navs d url n) as [Hn Hle].
    destruct (Script1.attempt d url n) as [[e n1] l1].
    unfold navs_of, trace_of in Hn, Hle; simpl in Hn, Hle.
    destruct e as [r| |].
    + unfold ret, navs_of, trace_of; simpl. count_navigations.
    + destruct (IH (S attempt_no) n1) as [Hn' Hle'].
      destruct (Script1.scrape_loop d url max_retries (S attempt_no) todo n1)
        as [[r n2] l2].
      unfold navs_of, trace_of in *; simpl in *. count_navigations.
    + destruct (IH (S attempt_no) n1) as [Hn' Hle'].
      unfold bind, emit.
      destruct (Script1.scrape_loop d url max_retries (S attempt_no) todo n1)
        as [[r n2] l2].
      unfold navs_of, trace_of in *; simpl in *. count_navigations.
Qed.

(** With a browser that never opens the page every attempt ends in the
    [continue] of the source: three navigations each, and the sentinels at
    the end. *)
Lemma scrape_loop_never_loads {L : Library} (d : Driver) (url : string) (max_retries : nat) :
  forall todo attempt_no n,
    (forall k, get_ok d (n + k) url = false) ->
    let r := Script1.scrape_loop d url max_retries attempt_no todo n in
    result_of r = all_sentinel /\ navigations (trace_of r) = 3 * todo.
Proof.
  induction todo as [|todo IH]; intros attempt_no n Hraise.
  - unfold result_of, trace_of, navigations; simpl. auto.
  - cbn [Script1.scrape_loop]. unfold Script1.attempt, bind.
    destruct (safe_get_loop_all_raise d url 3 3 0 n (fun j _ => Hraise j))
      as (Hres & Hn & Hnav).
    fold (Script1.safe_get d url 3) in Hres, Hn, Hnav.
    destruct (Script1.safe_get d url 3 n) as [[ok n1] l0].
    unfold result_of, navs_of, trace_of in Hres, Hn, Hnav; simpl in Hres, Hn, Hnav.
    subst ok n1. simpl.
    destruct (IH (S attempt_no) (n + 3)) as [Hr Ht].
    { intros k. replace (n + 3 + k) with (n + (3 + k)) by lia. apply Hraise. }
    destruct (Script1.scrape_loop d url max_retries (S attempt_no) todo (n + 3))
      as [[r n2] l2].
    unfold result_of, trace_of in *; simpl in *.
    split; [assumption|]. count_navigations.
Qed.

(** [scrape_player_profile] requests the player page at most three times
    in each of its [max_retries] attempts, nine times with the defaults;
    a browser that never opens the page costs all of them and gives the
    nine sentinels; with [max_retries = 0] nothing is requested. *)
Theorem scrape_player_profile_request_bound {L : Library} (d : Driver)
  (url : string) (max_retries n : nat) :
  let r := Script1.scrape_player_profile d url max_retries n in
  navigations (trace_of r) <= 3 * max_retries
  /\ navs_of r = n + navigations (trace_of r)
  /\ ((forall k, get_ok d (n + k) url = false) ->
      result_of r = all_sentinel /\ navigations (trace_of r) = 3 * max_retries)
  /\ Script1.scrape_player_profile d url 0 n = (all_sentinel, n, []).
Proof.
  cbv zeta. unfold Script1.scrape_player_profile.
  destruct (scrape_loop_navs d url max_retries max_retries 0 n) as [Hn Hle].
  split; [assumption|]. split; [assumption|]. split; [|reflexivity].
  intros Hraise. now apply scrape_loop_never_loads.
Qed.

(** Nine requests for a page that never opens. *)
Lemma scrape_player_profile_request_bound_witness :
  result_of (Script1.scrape_player_profile (L := Samples.stub_library)
               (Samples.browser (fun _ => false) (Text "") []) "u" 3 0)
  = all_sentinel
  /\ navigations (trace_of (Script1.scrape_player_profile (L := Samples.stub_library)
                              (Samples.browser (fun _ => false) (Text "") []) "u" 3 0))
     = 9.
Proof.
  exact (proj1 (proj2 (proj2
           (@scrape_player_profile_request_bound Samples.stub_library
              (Samples.browser (fun _ => false) (Text "") []) "u" 3 0)))
           (fun _ => eq_refl)).
Defined.

Lemma process_row_navs {L : Library} (d : Driver) (idx : nat) (row : node) (n : nat) :
  let r := Script1.process_row d idx row n in
  navs_of r = n + navigations (trace_of r)
  /\ navigations (trace_of r) <= 9 * length (result_of r)
  /\ length (result_of r) <= 1.
Proof.
  unfold Script1.process_row.
  destruct (length (find_all (is_tag "td") row) <? 8);
    [unfold bind, emit, ret, navs_of, trace_of, result_of; simpl; count_navigations|].
  destruct (find (is_tag "a") (nth 1 (find_all (is_tag "td") row) (Text "")))
    as [name_tag|]; [|unfold ret, navs_of, trace_of, result_of; simpl; count_navigations].
  destruct (attr name_tag "href") as [href|];
    [|unfold bind, emit, ret, navs_of, trace_of, result_of; simpl; count_navigations].
  unfold bind.
  destruct (scrape_loop_navs d ("https://sofifa.com" ++ href) 3 3 0 n) as [Hn Hle].
  fold (Script1.scrape_player_profile d ("https://sofifa.com" ++ href) 3) in Hn, Hle.
  destruct (Script1.scrape_player_profile d ("https://sofifa.com" ++ href) 3 n)
    as [[r n1] l1].
  unfold navs_of, trace_of, result_of, ret in *; simpl in *.
  count_navigations.
Qed.

Lemma process_rows_navs {L : Library} (d : Driver) :
  forall rows idx n,
    let r := Script1.process_rows d idx rows n in
    navs_of r = n + navigations (trace_of r)
    /\ navigations (trace_of r) <= 9 * length (result_of r)
    /\ length (result_of r) <= length rows.
Proof.
  induction rows as [|row rows IH]; intros idx n.
  - unfold navs_of, trace_of, result_of; simpl. count_navigations.
  - cbn [Script1.process_rows]. unfold bind.
    destruct (process_row_navs d idx row n) as (Hn & Hle & Hone).
    destruct (Script1.process_row d idx row n) as [[here n1] l1].
    destruct (IH (S idx) n1) as (Hn' & Hle' & Hlen).
    destruct (Script1.process_rows d (S idx) rows n1) as [[later n2] l2].
    unfold navs_of, trace_of, result_of, ret in *; simpl in *.
    rewrite length_app. count_navigations.
Qed.

Lemma finalize_navigations {L : Library} (d : Driver) (n : nat) (all : list FullRecord) :
  navigations (Script1.finalize d n all) = 0.
Proof.
  unfold Script1.finalize, Script1.export_all_formats.
  destruct (connectable d n), (write_ok d Xlsx), (write_ok d Txt); reflexivity.
Qed.

(** A run of Script_1 requests the team page at most three times and a
    player page at most nine times for every record it collects; rows that
    give no record cost no request, and a run that cannot open the team
    page or whose wait for the table times out requests no player page. *)
Theorem script1_request_bound {L : Library} (d : Driver) (team_url : string)
  (fuel : nat) (all : list FullRecord) (tr : list event) :
  Script1.main d team_url fuel = Some (all, tr) ->
  navigations tr <= 3 + 9 * length all
  /\ length all <= length (select_rows
                            (page_source d (navs_of (Script1.safe_get d team_url 3 0))))
  /\ ((result_of (Script1.safe_get d team_url 3 0) = false
       \/ wait_ok d (navs_of (Script1.safe_get d team_url 3 0)) = false) ->
      all = [] /\ navigations tr <= 3).
Proof.
  unfold Script1.main.
  destruct (safe_get_loop_navs d team_url 3 3 0 0) as [_ Hle].
  fold (Script1.safe_get d team_url 3) in Hle.
  destruct (Script1.safe_get d team_url 3 0) as [[ok n] l0].
  unfold result_of, navs_of, trace_of in *. cbn [fst snd] in *.
  assert (Hfatal : navigations (l0 ++ [Fatal] ++ Script1.finalize d n []) <= 3).
  { rewrite !navigations_app, finalize_navigations. count_navigations. }
  cbn [app] in Hfatal.
  destruct ok; cbn [negb].
  - destruct (scroll_to_bottom (scroll_height d n) fuel); [|discriminate].
    destruct (wait_ok d n) eqn:Hwait; cbn [negb].
    + destruct (process_rows_navs d (select_rows (page_source d n)) 1 n)
        as (_ & Hrows & Hlen).
      destruct (Script1.process_rows d 1 (select_rows (page_source d n)) n)
        as [[rows n'] l1].
      unfold result_of, trace_of in *. cbn [fst snd] in *.
      intros [= <- <-]. rewrite !navigations_app, finalize_navigations.
      split; [lia|]. split; [assumption|].
      intros [H|H]; discriminate.
    + intros [= <- <-]. cbn [length]. split; [lia|]. split; [lia|]. auto.
  - intros [= <- <-]. cbn [length]. split; [lia|]. split; [lia|]. auto.
Qed.

(** The squad of the samples: one request for the team page and one for
    each of the eighteen players. *)
Lemma script1_request_bound_witness :
  navigations
    (snd (match Script1.main (L := Samples.stub_library)
                  (Samples.serve (Samples.listing Samples.squad_rows))
                  "https://sofifa.com/team/243/real-madrid/" 1 with
          | Some r => r
          | None => ([], [])
          end))
  <= 3 + 9 * 18.
Proof.
  exact (proj1 (@script1_request_bound Samples.stub_library
                  (Samples.serve (Samples.listing Samples.squad_rows))
                  "https://sofifa.com/team/243/real-madrid/" 1 _ _ eq_refl)).
Defined.

(** ** [get_player_urls_from_team] *)

(** A string cut at its first separator holds no separator. *)
Lemma split_head_no_sep (sep : ascii) (s : string) :
  contains (String sep EmptyString) (split_head sep s) = false.
Proof.
  induction s as [|c s IH]; simpl.
  - reflexivity.
  - destruct (Ascii.eqb_spec c sep) as [->|Hne]; simpl; [reflexivity|].
    destruct (Ascii.ascii_dec sep c) as [->|_]; [contradiction|].
    exact IH.
Qed.

Lemma team_attempt_navs (d : Driver) (team_url : string) (fuel n : nat) :
  let r := Script2.team_attempt d team_url fuel n in
  navs_of r = S n /\ navigations (trace_of r) = 1.
Proof.
  unfold Script2.team_attempt, bind, driver_get, navs, ret.
  destruct (get_ok d n team_url); cbn [negb];
    [destruct (scroll_to_bottom (scroll_height d (S n)) fuel);
     [destruct (file_ok d (S n)); cbn [negb];
      [destruct (wait_ok d (S n)); cbn [negb]|]|]|];
    unfold navs_of, trace_of; simpl; count_navigations.
Qed.

Lemma team_loop_navs (d : Driver) (team_url : string) (fuel max_retries : nat) :
  forall todo attempt n,
    let r := Script2.team_loop d team_url fuel max_retries attempt todo n in
    navs_of r = n + navigations (trace_of r) /\ navigations (trace_of r) <= todo.
Proof.
  induction todo as [|todo IH]; intros attempt n.
  - unfold navs_of, trace_of; simpl. count_navigations.
  - cbn [Script2.team_loop]. unfold bind, emit.
    destruct (team_attempt_navs d team_url fuel n) as [Hn Hone].
    destruct (Script2.team_attempt d team_url fuel n) as [[r n1] l1].
    unfold navs_of, trace_of in Hn, Hone; simpl in Hn, Hone.
    destruct r as [[urls|]|].
    + unfold ret, navs_of, trace_of; simpl. count_navigations.
    + destruct (IH (S attempt) n1) as [Hn' Hle'].
      destruct (Script2.team_loop d team_url fuel max_retries (S attempt) todo n1)
        as [[r n2] l2].
      unfold navs_of, trace_of in *; simpl in *. count_navigations.
    + unfold ret, navs_of, trace_of; simpl. count_navigations.
Qed.

Lemma unique_clean_urls (d : Driver) (n : nat) :
  Invariants.clean_and_unique d (Script2.unique_urls (Script2.clean_urls (player_hrefs d n))).
Proof.
  split.
  - rewrite unique_urls_keep_first. apply keep_first_NoDup.
  - intros u Hu. rewrite unique_urls_keep_first in Hu.
    apply keep_first_In in Hu. destruct Hu as [Hu _].
    unfold Script2.clean_urls in Hu. apply in_map_iff in Hu.
    destruct Hu as (href & <- & Hhref). apply filter_In in Hhref.
    destruct Hhref as [Hin Hplayer].
    split; [apply split_head_no_sep|]. now exists n, href.
Qed.

Lemma team_loop_urls (d : Driver) (team_url : string) (fuel max_retries : nat) :
  forall todo attempt n urls,
    result_of (Script2.team_loop d team_url fuel max_retries attempt todo n) = Some urls ->
    Invariants.clean_and_unique d urls.
Proof.
  induction todo as [|todo IH]; intros attempt n urls.
  - unfold result_of; simpl. intros [= <-]. split; [constructor | intros u []].
  - cbn [Script2.team_loop]. unfold bind, emit.
    destruct (Script2.team_attempt d team_url fuel n) as [[r n1] l1] eqn:Ha.
    destruct r as [[found|]|].
    + unfold ret, result_of; simpl. intros [= <-].
      revert Ha. unfold Script2.team_attempt, bind, driver_get, navs, ret.
      destruct (get_ok d n team_url); cbn [negb]; [|discriminate].
      destruct (scroll_to_bottom (scroll_height d (S n)) fuel); [|discriminate].
      destruct (file_ok d (S n)); cbn [negb]; [|discriminate].
      destruct (wait_ok d (S n)); cbn [negb]; [|discriminate].
      intros [= <- _ _]. apply unique_clean_urls.
    + specialize (IH (S attempt) n1 urls).
      destruct (Script2.team_loop d team_url fuel max_retries (S attempt) todo n1)
        as [[r n2] l2].
      unfold result_of in *; simpl in *. exact IH.
    + unfold ret, result_of; simpl. discriminate.
Qed.

Lemma team_loop_never_loads (d : Driver) (team_url : string) (fuel max_retries : nat) :
  forall todo attempt n,
    (forall k, k < todo -> get_ok d (n + k) team_url = false) ->
    let r := Script2.team_loop d team_url fuel max_retries attempt todo n in
    result_of r = Some [] /\ navigations (trace_of r) = todo.
Proof.
  induction todo as [|todo IH]; intros attempt n Hraise.
  - unfold result_of, trace_of; simpl. auto.
  - cbn [Script2.team_loop].
    unfold bind, emit, Script2.team_attempt, bind, driver_get, ret.
    assert (H0 : get_ok d n team_url = false)
      by (rewrite <- (Nat.add_0_r n); apply Hraise; lia).
    rewrite H0. cbn [negb].
    destruct (IH (S attempt) (S n)) as [Hr Ht].
    { intros k Hk. replace (S n + k) with (n + S k) by lia. apply Hraise. lia. }
    destruct (Script2.team_loop d team_url fuel max_retries (S attempt) todo (S n))
      as [[r n2] l2].
    unfold result_of, trace_of in *; simpl in *.
    split; [assumption|]. count_navigations.
Qed.

(** [get_player_urls_from_team] loads the team page at most [max_retries]
    times; the list it returns has no URL twice, every URL in it is a link
    of the page that contains "/player/", cut at its first question mark
    (so it holds no question mark); and when the page never opens the
    list is empty after [max_retries] requests. *)
Theorem get_player_urls_from_team_result (d : Driver) (team_url : string)
  (fuel max_retries n : nat) :
  let r := Script2.get_player_urls_from_team d team_url fuel max_retries n in
  navigations (trace_of r) <= max_retries
  /\ (forall urls, result_of r = Some urls ->
        NoDup urls
        /\ forall u, In u urls ->
             contains "?" u = false
             /\ exists k href,
                  In href (player_hrefs d k)
                  /\ contains "/player/" href = true /\ u = split_head "?" href)
  /\ ((forall k, k < max_retries -> get_ok d (n + k) team_url = false) ->
      result_of r = Some [] /\ navigations (trace_of r) = max_retries).
Proof.
  cbv zeta. unfold Script2.get_player_urls_from_team.
  split; [apply team_loop_navs|]. split.
  - intros urls Hurls. exact (team_loop_urls d team_url fuel max_retries _ _ _ _ Hurls).
  - intros Hraise. now apply team_loop_never_loads.
Qed.

(** A team page with the same player under two addresses. *)
Lemma get_player_urls_from_team_result_witness :
  NoDup ["https://sofifa.com/player/1/a/"; "https://sofifa.com/player/2/b/"].
Proof.
  exact (proj1 (proj1 (proj2
           (get_player_urls_from_team_result
              (Samples.browser (fun _ => true) (Text "")
                 ["https://sofifa.com/player/1/a/?r=1"; "https://sofifa.com/team/9/";
                  "https://sofifa.com/player/2/b/"; "https://sofifa.com/player/1/a/"])
              "https://sofifa.com/team/243/real-madrid/" 1 3 0))
           _ eq_refl)).
Defined.

(** ** [scrape_name_value_wage] and the run of Script_2 *)

(** One attempt that loads the page and finds the grid returns. *)
Lemma scrape2_loop_step_ok (d : Driver) (url pid : string)
  (max_retries attempt todo n : nat) :
  get_ok d n url && wait_ok d (S n) = true ->
  Script2.scrape_loop d url pid max_retries attempt (S todo) n =
  (let '(name, value, wage) := Script2.parse_player (page_source d (S n)) in
   mkMinimal pid name value wage,
   S n, [Navigate url (get_ok d n url)]).
Proof.
  intros Hok. cbn [Script2.scrape_loop]. unfold bind, driver_get, navs, ret.
  rewrite Hok.
  destruct (Script2.parse_player (page_source d (S n))) as [[name value] wage].
  reflexivity.
Qed.

Lemma scrape2_loop_navs (d : Driver) (url pid : string) (max_retries : nat) :
  forall todo attempt n,
    let r := Script2.scrape_loop d url pid max_retries attempt todo n in
    m_ID (result_of r) = pid
    /\ navs_of r = n + navigations (trace_of r)
    /\ navigations (trace_of r) <= todo.
Proof.
  induction todo as [|todo IH]; intros attempt n.
  - unfold result_of, navs_of, trace_of; simpl.
    repeat split; count_navigations.
  - destruct (get_ok d n url && wait_ok d (S n)) eqn:Hok.
    + rewrite scrape2_loop_step_ok by assumption.
      destruct (Script2.parse_player (page_source d (S n))) as [[name value] wage].
      unfold result_of, navs_of, trace_of; simpl.
      repeat split; count_navigations.
    + rewrite scrape2_loop_step_failed by assumption.
      destruct (IH (S attempt) (S n)) as (Hid & Hn & Hle).
      cbv zeta. unfold result_of, navs_of, trace_of in *. cbn [fst snd] in *.
      repeat split; [assumption | count_navigations | count_navigations].
Qed.

Lemma scrape2_loop_first_success (d : Driver) (url pid : string) (max_retries : nat) :
  forall k todo attempt n,
    k < todo ->
    (forall j, j < k -> get_ok d (n + j) url && wait_ok d (S (n + j)) = false) ->
    get_ok d (n + k) url && wait_ok d (S (n + k)) = true ->
    let r := Script2.scrape_loop d url pid max_retries attempt todo n in
    result_of r
    = (let '(name, value, wage) := Script2.parse_player (page_source d (S (n + k))) in
       mkMinimal pid name value wage)
    /\ navigations (trace_of r) = S k.
Proof.
  induction k as [|k IH]; intros todo attempt n Hk Hbefore Hok;
    (destruct todo as [|todo]; [lia|]).
  - rewrite Nat.add_0_r in Hok. rewrite scrape2_loop_step_ok by assumption.
    rewrite Nat.add_0_r. unfold result_of, trace_of; simpl.
    split; [reflexivity | count_navigations].
  - rewrite scrape2_loop_step_failed
      by (specialize (Hbefore 0); rewrite Nat.add_0_r in Hbefore; apply Hbefore; lia).
    destruct (IH todo (S attempt) (S n)) as [Hr Ht].
    + lia.
    + intros j Hj. replace (S n + j) with (n + S j) by lia. apply Hbefore. lia.
    + replace (S n + k) with (n + S k) by lia. assumption.
    + cbv zeta. unfold result_of, trace_of in *. cbn [fst snd] in *.
      replace (S n + k) with (n + S k) in Hr by lia.
      split; [assumption|]. count_navigations.
Qed.

(** [scrape_name_value_wage] requests the player page at most
    [max_retries] times; whatever happens, the ID of its record is the one
    read off the URL; and the record is parsed from the page of the first
    attempt whose navigation and wait both succeed, after which nothing
    more is requested. *)
Theorem scrape_name_value_wage_result (d : Driver) (url : string)
  (max_retries n : nat) :
  let r := Script2.scrape_name_value_wage d url max_retries n in
  m_ID (result_of r) = player_id_of url "-"
  /\ navigations (trace_of r) <= max_retries
  /\ navs_of r = n + navigations (trace_of r)
  /\ (forall k, k < max_retries ->
      (forall j, j < k -> get_ok d (n + j) url && wait_ok d (S (n + j)) = false) ->
      get_ok d (n + k) url && wait_ok d (S (n + k)) = true ->
      result_of r
      = (let '(name, value, wage) := Script2.parse_player (page_source d (S (n + k))) in
         mkMinimal (player_id_of url "-") name value wage)
      /\ navigations (trace_of r) = S k).
Proof.
  cbv zeta. unfold Script2.scrape_name_value_wage.
  destruct (scrape2_loop_navs d url (player_id_of url "-") max_retries
              max_retries 0 n) as (Hid & Hn & Hle).
  repeat split; try assumption.
  - now apply scrape2_loop_first_success.
  - now apply scrape2_loop_first_success.
Qed.

Lemma scrape_all_navs (d : Driver) :
  forall player_urls n,
    let r := Script2.scrape_all d player_urls n in
    length (result_of r) = length player_urls
    /\ navigations (trace_of r) <= 3 * length player_urls.
Proof.
  induction player_urls as [|url rest IH]; intros n.
  - unfold result_of, trace_of; simpl. count_navigations.
  - cbn [Script2.scrape_all]. unfold bind.
    destruct (scrape2_loop_navs d url (player_id_of url "-") 3 3 0 n) as (_ & _ & Hle).
    fold (Script2.scrape_name_value_wage d url 3) in Hle.
    destruct (Script2.scrape_name_value_wage d url 3 n) as [[r n1] l1].
    destruct (IH n1) as [Hlen Hle'].
    destruct (Script2.scrape_all d rest n1) as [[later n2] l2].
    unfold result_of, trace_of, ret in *; simpl in *. count_navigations.
Qed.

Lemma save_files_navigations (d : Driver) (results : list MinimalRecord) :
  navigations (Script2.save_files d results) = 0.
Proof.
  unfold Script2.save_files. destruct (write_ok d Txt), (write_ok d Json); reflexivity.
Qed.

(** A run of Script_2 requests the team page at most three times and
    every player page at most three times; it has one record for every
    URL found, failed players included, and with no URL found it requests
    no player page. *)
Theorem script2_request_bound (d : Driver) (team_url : string) (fuel : nat)
  (results : list MinimalRecord) (tr : list event) :
  Script2.main d team_url fuel = Some (results, tr) ->
  navigations tr <= 3 + 3 * length results
  /\ exists player_urls,
       result_of (Script2.get_player_urls_from_team d team_url fuel 3 0)
       = Some player_urls
       /\ length results = length player_urls.
Proof.
  unfold Script2.main.
  destruct (team_loop_navs d team_url fuel 3 3 0 0) as [_ Hle].
  fold (Script2.get_player_urls_from_team d team_url fuel 3) in Hle.
  destruct (Script2.get_player_urls_from_team d team_url fuel 3 0) as [[found n] l0].
  unfold result_of, trace_of in *. cbn [fst snd] in *.
  destruct found as [[|url rest]|]; [| |discriminate].
  - intros [= <- <-]. split; [|now exists []].
    count_navigations.
  - destruct (scrape_all_navs d (url :: rest) n) as [Hlen Hnav].
    destruct (Script2.scrape_all d (url :: rest) n) as [[res n'] l1].
    unfold result_of, trace_of in *. cbn [fst snd] in *.
    destruct res as [|r res]; [discriminate|].
    cbv beta iota. intros [= <- <-]. split; [|now exists (url :: rest)].
    rewrite !navigations_app, navigations_cons, save_files_navigations.
    rewrite Hlen in *. count_navigations.
Qed.

(** Two players, each loaded at once. *)
Lemma script2_request_bound_witness :
  navigations
    (snd (match Script2.main
                  (Samples.browser (fun _ => true) (Text "")
                     ["https://sofifa.com/player/1/a/"; "https://sofifa.com/player/2/b/"])
                  "https://sofifa.com/team/243/real-madrid/" 1 with
          | Some r => r
          | None => ([], [])
          end))
  <= 3 + 3 * 2.
Proof.
  exact (proj1 (script2_request_bound
                  (Samples.browser (fun _ => true) (Text "")
                     ["https://sofifa.com/player/1/a/"; "https://sofifa.com/player/2/b/"])
                  "https://sofifa.com/team/243/real-madrid/" 1 _ _ eq_refl)).
Defined.

(** ** The fields of a player page *)

(** The loop over the paragraphs, started from any values: each of the
    four fields ends as the value of the last paragraph with its label,
    and keeps its start value when there is none. *)
Lemma fold_paragraph_step (ps : list node) :
  forall acc,
    let r := fold_left Script1.paragraph_step ps acc in
    Script1.l_foot r
    = last (Invariants.values_of "Preferred foot" ps) (Script1.l_foot acc)
    /\ Script1.l_skill_moves r
       = last (Invariants.values_of "Skill moves" ps) (Script1.l_skill_moves acc)
    /\ Script1.l_weak_foot r
       = last (Invariants.values_of "Weak foot" ps) (Script1.l_weak_foot acc)
    /\ Script1.l_contract_valid_until r
       = last (Invariants.values_of "Contract valid until" ps)
           (Script1.l_contract_valid_until acc).
Proof.
  induction ps as [|p ps IH] using rev_ind; intros acc; [cbn; auto|].
  cbv zeta. rewrite fold_left_app. cbn [fold_left].
  destruct (IH acc) as (Hf & Hs & Hw & Hc).
  unfold Invariants.values_of in *. rewrite !flat_map_app. cbn [flat_map].
  rewrite !app_nil_r.
  unfold Script1.paragraph_step at 1 3 5 7, Invariants.labelled_value.
  destruct (find (is_tag "label") p) as [label|];
    [|rewrite !app_nil_r; auto].
  set (text := strip (Soup.text label)).
  set (v := strip (replace (get_text_strip p) text "")).
  destruct (String.eqb_spec text "Preferred foot") as [->|_];
    [cbn; rewrite ?app_nil_r, ?last_last; auto|].
  destruct (String.eqb_spec text "Skill moves") as [->|_];
    [cbn; rewrite ?app_nil_r, ?last_last; auto|].
  destruct (String.eqb_spec text "Weak foot") as [->|_];
    [cbn; rewrite ?app_nil_r, ?last_last; auto|].
  destruct (String.eqb_spec text "Contract valid until") as [->|_];
    [cbn; rewrite ?app_nil_r, ?last_last; auto|].
  rewrite !app_nil_r. auto.
Qed.

(** The loop over the [info] elements, started from any pair. *)
Lemma fold_info_step (divs : list node) :
  forall acc,
    let r := fold_left Script1.info_step divs acc in
    fst r = last (Invariants.value_candidates divs) (fst acc)
    /\ snd r = last (Invariants.wage_candidates divs) (snd acc).
Proof.
  induction divs as [|div divs IH] using rev_ind; intros acc; [cbn; auto|].
  cbv zeta. rewrite fold_left_app. cbn [fold_left].
  destruct (IH acc) as [Hv Hw].
  unfold Invariants.value_candidates, Invariants.wage_candidates in *.
  rewrite !flat_map_app. cbn [flat_map]. rewrite !app_nil_r.
  unfold Script1.info_step at 1 3.
  destruct (find (is_tag "label") div) as [label|]; [|rewrite !app_nil_r; auto].
  destruct (contains "Value" (Soup.text label));
    [cbn [fst snd]; rewrite ?app_nil_r, ?last_last; auto|].
  destruct (contains "Wage" (Soup.text label));
    cbn [fst snd]; rewrite ?app_nil_r, ?last_last; auto.
Qed.

(** *** The regular expression of the contract *)

Lemma take_drop (n : nat) (s : string) : s = (take n s ++ drop n s)%string.
Proof.
  revert s. induction n as [|n IH]; intros [|c s]; simpl; try reflexivity.
  now rewrite <- IH.
Qed.

Lemma four_digits_some (s d : string) :
  four_digits s = Some d ->
  s = (d ++ drop 4 s)%string
  /\ String.length d = 4 /\ all_chars isdigit d = true.
Proof.
  unfold four_digits.
  destruct (Nat.eqb_spec (String.length (take 4 s)) 4) as [Hlen|_];
    [|discriminate].
  destruct (all_chars isdigit (take 4 s)) eqn:Hall; [|discriminate].
  intros [= <-]. split; [exact (take_drop 4 s) | now split].
Qed.

(** The rest of a string after its longest prefix of characters with [p]. *)
Lemma take_while_drop (p : ascii -> bool) (s : string) :
  s = (take_while p s ++ drop (String.length (take_while p s)) s)%string
  /\ all_chars p (take_while p s) = true.
Proof.
  destruct (take_while_split p s) as (rest & Heq & Hall & _).
  split; [|assumption].
  pose proof (drop_append (take_while p s) rest) as Hd.
  rewrite <- Heq in Hd. rewrite Hd. exact Heq.
Qed.

(** A match at the start of a string has the shape of the pattern and is
    a prefix of the string. *)
Lemma match_duration_some (s m : string) :
  match_duration s = Some m ->
  Invariants.duration_shaped m /\ exists post, s = (m ++ post)%string.
Proof.
  unfold match_duration.
  destruct (four_digits s) as [d1|] eqn:H1; [|discriminate].
  apply four_digits_some in H1. destruct H1 as (Hs & Hl1 & Hd1).
  destruct (take_while_drop isspace (drop 4 s)) as [Hr1 Hw1].
  set (w1 := take_while isspace (drop 4 s)) in *.
  destruct (drop (String.length w1) (drop 4 s)) as [|c r2] eqn:Hrest; [discriminate|].
  destruct (Ascii.eqb_spec c "~") as [->|Hne].
  - destruct (take_while_drop isspace r2) as [Hr2 Hw2].
    set (w2 := take_while isspace r2) in *.
    destruct (four_digits (drop (String.length w2) r2)) as [d2|] eqn:H2.
    + apply four_digits_some in H2. destruct H2 as (Hs2 & Hl2 & Hd2).
      intros [= <-]. split.
      * exists d1, w1, w2, d2. repeat split; assumption.
      * exists (drop 4 (drop (String.length w2) r2)).
        rewrite !append_assoc. cbn [String.append]. rewrite !append_assoc.
        rewrite <- Hs2, <- Hr2, <- Hr1. exact Hs.
    + discriminate.
  - destruct c as [[] [] [] [] [] [] [] []]; try discriminate.
    now elim Hne.
Qed.

(** What [re.search] finds has the shape of the pattern and is a piece of
    the string searched; it is never the sentinel. *)
Lemma search_duration_some (s m : string) :
  search_duration s = Some m ->
  Invariants.duration_shaped m
  /\ (exists pre post, s = (pre ++ m ++ post)%string)
  /\ m <> "-".
Proof.
  assert (Hshape : forall m', Invariants.duration_shaped m' -> m' <> "-").
  { intros m' (d1 & w1 & w2 & d2 & -> & Hl1 & _) H.
    destruct d1 as [|a [|b d1]]; simpl in Hl1; try discriminate. }
  induction s as [|c s IH]; simpl.
  - discriminate.
  - destruct (match_duration (String c s)) as [m'|] eqn:Hm.
    + intros [= <-]. apply match_duration_some in Hm. destruct Hm as [Hsh [post Hpost]].
      split; [assumption|]. split; [now exists EmptyString, post | now apply Hshape].
    + intros H. destruct (IH H) as (Hsh & (pre & post & ->) & Hne).
      split; [assumption|]. split; [now exists (String c pre), post | assumption].
Qed.

(** In the result of the field parsing, foot, skill moves and weak foot
    are each the value of the last paragraph whose label is the one of the
    field, value and wage are each read off the last [info] element whose
    label asks for them (a label with "Value" in it never gives the wage),
    and a field without such an element is "-": no field depends on the
    elements of another. *)
Theorem extract_fields_last_match {L : Library} (soup : node) (r : Detail) :
  Script1.extract_fields soup = Some r ->
  let ps := find_all (is_tag "p") soup in
  let divs := find_all (fun n => is_tag "div" n && has_class "info" n) soup in
  foot r = PStr (last (Invariants.values_of "Preferred foot" ps) "-")
  /\ skill_moves r = PStr (last (Invariants.values_of "Skill moves" ps) "-")
  /\ weak_foot r = PStr (last (Invariants.values_of "Weak foot" ps) "-")
  /\ value r = PStr (last (Invariants.value_candidates divs) "-")
  /\ wage r = PStr (last (Invariants.wage_candidates divs) "-").
Proof.
  unfold Script1.extract_fields.
  destruct (Script1.ld_json_fields soup) as [[[h w] nation]|]; [|discriminate].
  intros [= <-]. cbv zeta. cbn [foot skill_moves weak_foot value wage].
  unfold Script1.labelled_fields, Script1.info_fields.
  destruct (fold_paragraph_step (find_all (is_tag "p") soup)
              (Script1.mkLabelled "-" "-" "-" "-")) as (Hf & Hs & Hw & _).
  destruct (fold_info_step
              (find_all (fun n => is_tag "div" n && has_class "info" n) soup)
              ("-", "-")) as [Hv Hg].
  cbv zeta in Hf, Hs, Hw, Hv, Hg. cbn [Script1.l_foot Script1.l_skill_moves
    Script1.l_weak_foot fst snd] in Hf, Hs, Hw, Hv, Hg.
  rewrite Hf, Hs, Hw, Hv, Hg. repeat split.
Qed.

(** The page of the samples: the second foot paragraph wins. *)
Lemma extract_fields_last_match_witness :
  option_map foot (Script1.extract_fields (L := Samples.stub_library)
                     Samples.page_with_contract)
  = Some (PStr "Right")
  /\ option_map value (Script1.extract_fields (L := Samples.stub_library)
                         Samples.page_with_contract)
     = Some (PStr "180M").
Proof.
  pose proof (@extract_fields_last_match Samples.stub_library
                Samples.page_with_contract _ eq_refl) as H.
  split; [exact (f_equal Some (proj1 H))|].
  exact (f_equal Some (proj1 (proj2 (proj2 (proj2 H))))).
Defined.

(** The end of the contract: when the text after the first [span] of class
    [pos] holds two years around a tilde, [contract_end] is that piece of
    the text, whatever the "Contract valid until" paragraph says;
    otherwise it is the value of the last such paragraph, or "-". *)
Theorem contract_end_prefers_duration {L : Library} (soup : node) (r : Detail) :
  Script1.extract_fields soup = Some r ->
  let valid_until :=
    last (Invariants.values_of "Contract valid until" (find_all (is_tag "p") soup)) "-" in
  (forall span sibling m,
     find_with_sibling (fun n => is_tag "span" n && has_class "pos" n) soup
     = Some (span, Some sibling) ->
     truthy sibling = true ->
     search_duration (Script1.str_of sibling) = Some m ->
     contract_end r = PStr m
     /\ Invariants.duration_shaped m
     /\ exists pre post, Script1.str_of sibling = (pre ++ m ++ post)%string)
  /\ (Script1.contract_duration soup = "-" -> contract_end r = PStr valid_until)
  /\ (Script1.contract_duration soup = "-"
      \/ exists span sibling,
           find_with_sibling (fun n => is_tag "span" n && has_class "pos" n) soup
           = Some (span, Some sibling)
           /\ truthy sibling = true
           /\ search_duration (Script1.str_of sibling)
              = Some (Script1.contract_duration soup)).
Proof.
  unfold Script1.extract_fields.
  destruct (Script1.ld_json_fields soup) as [[[h w] nation]|]; [|discriminate].
  intros [= <-]. cbv zeta. cbn [contract_end].
  destruct (fold_paragraph_step (find_all (is_tag "p") soup)
              (Script1.mkLabelled "-" "-" "-" "-")) as (_ & _ & _ & Hc).
  cbv zeta in Hc. cbn [Script1.l_contract_valid_until] in Hc.
  fold (Script1.labelled_fields soup) in Hc.
  split; [|split].
  - intros span sibling m Hfind Htruthy Hsearch.
    destruct (search_duration_some _ _ Hsearch) as (Hshape & Hsub & Hne).
    unfold Script1.contract_duration. rewrite Hfind, Htruthy, Hsearch.
    apply String.eqb_neq in Hne. rewrite Hne. cbn [negb].
    split; [reflexivity|]. split; assumption.
  - intros ->. cbn [String.eqb negb]. now rewrite Hc.
  - unfold Script1.contract_duration.
    destruct (find_with_sibling _ soup) as [[span [sibling|]]|]; [| now left | now left].
    destruct (truthy sibling) eqn:Htruthy; [|now left].
    destruct (search_duration (Script1.str_of sibling)) as [m|] eqn:Hsearch; [|now left].
    right. now exists span, sibling.
Qed.

(** The page of the samples: the years beside the position win over the
    paragraph. *)
Lemma contract_end_prefers_duration_witness :
  option_map contract_end (Script1.extract_fields (L := Samples.stub_library)
                             Samples.page_with_contract)
  = Some (PStr "2024 ~ 2029").
Proof.
  exact (f_equal Some
           (proj1 (proj1 (@contract_end_prefers_duration Samples.stub_library
                            Samples.page_with_contract _ eq_refl)
                     _ _ "2024 ~ 2029" eq_refl eq_refl eq_refl))).
Defined.

(** ** The columns of the records *)

(** [player_id_of] gives the sentinel or a run of digits. *)
Lemma player_id_of_shaped (url : string) : Invariants.id_shaped (player_id_of url "-").
Proof.
  unfold player_id_of, Invariants.id_shaped.
  destruct (search_player url) as [ds|] eqn:Hs; [|now left].
  destruct (search_player_some url ds Hs) as (_ & _ & _ & Hne & Hall & _).
  right. now split.
Qed.

(** The ID column of both scripts holds nothing but "-" and runs of
    digits: every ID is read off a URL, by the pattern "/player/" followed
    by digits, also for a player whose page could not be read. *)
Theorem id_column_shape {L : Library} (d : Driver) (team_url : string) (fuel : nat) :
  (forall all tr,
     Script1.main d team_url fuel = Some (all, tr) ->
     Forall (fun r => Invariants.id_shaped (ID r)) all)
  /\ (forall results tr,
        Script2.main d team_url fuel = Some (results, tr) ->
        Forall (fun r => Invariants.id_shaped (m_ID r)) results).
Proof.
  split.
  - intros all tr Hmain.
    destruct (main1_records d team_url fuel all tr Hmain) as [->|[n Hrec]];
      [constructor|].
    apply (f_equal (map Listing.r_id)) in Hrec. rewrite !map_map in Hrec.
    cbn [Listing.reference_of_record Listing.r_id] in Hrec.
    apply (Forall_map ID (fun s => Invariants.id_shaped s)).
    change (map ID all) with (map (fun r => ID r) all). rewrite Hrec.
    apply Forall_map, Forall_forall. intros row _.
    unfold Listing.reference_of_row. cbn [Listing.r_id]. apply player_id_of_shaped.
  - intros results tr Hmain.
    destruct (main2_spec d team_url fuel results tr Hmain) as (urls & _ & Hids & _).
    apply (Forall_map m_ID (fun s => Invariants.id_shaped s)). rewrite Hids.
    apply Forall_map, Forall_forall. intros url _. apply player_id_of_shaped.
Qed.

(** *** White space at the ends *)

Lemma lstrip_head (s : string) :
  match lstrip s with
  | String c _ => isspace c = false
  | EmptyString => True
  end.
Proof.
  induction s as [|c s IH]; simpl; [exact I|].
  destruct (isspace c) eqn:Hc; [exact IH | exact Hc].
Qed.

Lemma rstrip_rstrip (s : string) : rstrip (rstrip s) = rstrip s.
Proof.
  induction s as [|c s IH]; simpl; [reflexivity|].
  destruct (rstrip s) as [|a r] eqn:Hr.
  - destruct (isspace c) eqn:Hc; simpl; [reflexivity | now rewrite Hc].
  - change (rstrip (String c (String a r)))
      with (match rstrip (String a r) with
            | EmptyString => if isspace c then EmptyString else String c EmptyString
            | String a' r' => String c (String a' r')
            end).
    now rewrite IH.
Qed.

(** [rstrip] keeps a first character that is no white space. *)
Lemma rstrip_head (c : ascii) (s : string) :
  isspace c = false -> exists r, rstrip (String c s) = String c r.
Proof.
  intros Hc. simpl. destruct (rstrip s); [rewrite Hc|]; eauto.
Qed.

(** Stripping what is stripped changes nothing. *)
Lemma strip_stripped (s : string) : Invariants.stripped (strip s).
Proof.
  unfold Invariants.stripped, strip.
  pose proof (lstrip_head s) as Hhead.
  destruct (lstrip s) as [|c t]; [reflexivity|].
  destruct (rstrip_head c t Hhead) as [r Hr].
  rewrite Hr. cbn [lstrip]. rewrite Hhead, <- Hr. apply rstrip_rstrip.
Qed.

Lemma sentinel_stripped : Invariants.stripped "-".
Proof. reflexivity. Qed.

Lemma reference_of_row_stripped (row : node) :
  let ref := Listing.reference_of_row row in
  Invariants.stripped (Listing.r_name ref) /\ Invariants.stripped (Listing.r_age ref)
  /\ Invariants.stripped (Listing.r_overall ref)
  /\ Invariants.stripped (Listing.r_potential ref)
  /\ Invariants.stripped (Listing.r_position ref).
Proof.
  cbv zeta. unfold Listing.reference_of_row.
  cbn [Listing.r_name Listing.r_age Listing.r_overall Listing.r_potential
       Listing.r_position].
  repeat split; try apply strip_stripped.
  destruct (find _ (nth 1 (Listing.cols row) (Text "")));
    [apply strip_stripped | apply sentinel_stripped].
Qed.

Lemma parse_player_stripped (soup : node) :
  let '(name, value, wage) := Script2.parse_player soup in
  Invariants.stripped name /\ Invariants.stripped value /\ Invariants.stripped wage.
Proof.
  unfold Script2.parse_player.
  assert (Hfold : forall cols acc,
             Invariants.stripped (fst acc) /\ Invariants.stripped (snd acc) ->
             Invariants.stripped (fst (fold_left Script2.col_step cols acc))
             /\ Invariants.stripped (snd (fold_left Script2.col_step cols acc))).
  { induction cols as [|col cols IH]; intros acc Hacc; [exact Hacc|].
    cbn [fold_left]. apply IH. unfold Script2.col_step.
    destruct (find _ col) as [sub|]; [|exact Hacc].
    destruct (find (is_tag "em") col) as [em|]; [|exact Hacc].
    destruct Hacc as [H1 H2].
    destruct (strip (text sub) =? "Value")%string;
      [split; [apply strip_stripped | exact H2]|].
    destruct (strip (text sub) =? "Wage")%string;
      [split; [exact H1 | apply strip_stripped]|].
    now split. }
  destruct (Hfold (select_cols soup) ("-", "-")) as [Hv Hw];
    [split; apply sentinel_stripped|].
  split; [|now split].
  destruct (find (is_tag "h1") soup); [apply strip_stripped | apply sentinel_stripped].
Qed.

Lemma scrape2_loop_stripped (d : Driver) (url pid : string) (max_retries : nat) :
  forall todo attempt n,
    Invariants.minimal_text_stripped
      (result_of (Script2.scrape_loop d url pid max_retries attempt todo n)).
Proof.
  induction todo as [|todo IH]; intros attempt n.
  - unfold result_of; simpl. repeat split.
  - destruct (get_ok d n url && wait_ok d (S n)) eqn:Hok.
    + rewrite scrape2_loop_step_ok by assumption.
      pose proof (parse_player_stripped (page_source d (S n))) as Hp.
      destruct (Script2.parse_player (page_source d (S n))) as [[name value] wage].
      exact Hp.
    + rewrite scrape2_loop_step_failed by assumption.
      exact (IH (S attempt) (S n)).
Qed.

Lemma scrape_all_stripped (d : Driver) :
  forall player_urls n,
    Forall Invariants.minimal_text_stripped
      (result_of (Script2.scrape_all d player_urls n)).
Proof.
  induction player_urls as [|url rest IH]; intros n.
  - constructor.
  - cbn [Script2.scrape_all]. unfold bind.
    pose proof (scrape2_loop_stripped d url (player_id_of url "-") 3 3 0 n) as Hr.
    fold (Script2.scrape_name_value_wage d url 3) in Hr.
    destruct (Script2.scrape_name_value_wage d url 3 n) as [[r n1] l1].
    specialize (IH n1).
    destruct (Script2.scrape_all d rest n1) as [[later n2] l2].
    unfold result_of, ret in *; simpl in *. now constructor.
Qed.

(** No text column of a record starts or ends with white space: the name,
    age, overall, potential and position of Script_1 and the name, value
    and wage of Script_2 are each the result of [strip] or the sentinel,
    so [strip] leaves them as they are. *)
Theorem text_columns_stripped {L : Library} (d : Driver) (team_url : string)
  (fuel : nat) :
  (forall all tr,
     Script1.main d team_url fuel = Some (all, tr) ->
     Forall Invariants.full_text_stripped all)
  /\ (forall results tr,
        Script2.main d team_url fuel = Some (results, tr) ->
        Forall Invariants.minimal_text_stripped results).
Proof.
  split.
  - intros all tr Hmain.
    destruct (main1_records d team_url fuel all tr Hmain) as [->|[n Hrec]];
      [constructor|].
    apply Forall_forall. intros r Hr.
    apply (in_map Listing.reference_of_record) in Hr. rewrite Hrec in Hr.
    apply in_map_iff in Hr. destruct Hr as (row & Href & _).
    pose proof (reference_of_row_stripped row) as Hs. cbv zeta in Hs.
    rewrite Href in Hs. exact Hs.
  - intros results tr. unfold Script2.main.
    destruct (Script2.get_player_urls_from_team d team_url fuel 3 0) as [[found n] l0].
    destruct found as [[|url rest]|]; [| |discriminate].
    + intros [= <- _]. constructor.
    + pose proof (scrape_all_stripped d (url :: rest) n) as Hall.
      destruct (Script2.scrape_all d (url :: rest) n) as [[res n'] l1].
      intros [= <- _]. exact Hall.
Qed.

(** ** The debug files *)

(** The address of the site in front of a link changes nothing in the
    player id that is read off it. *)
Lemma search_player_site_prefix (href : string) :
  search_player ("https://sofifa.com" ++ href) = search_player href.
Proof. reflexivity. Qed.

Lemma in_filter_nil {A : Type} (p : A -> bool) (l : list A) (x : A) :
  filter p l = [] -> In x l -> p x = false.
Proof.
  intros Hnil Hin. destruct (p x) eqn:Hp; [|reflexivity].
  assert (Hx : In x (filter p l)) by (apply filter_In; now split).
  rewrite Hnil in Hx. destruct Hx.
Qed.

Lemma attempt_debug_ids {L : Library} (d : Driver) (url : string) (n : nat) (pid : string) :
  In (DebugWrite pid) (trace_of (Script1.attempt d url n)) ->
  pid = player_id_of url "unknown".
Proof.
  unfold Script1.attempt, bind.
  pose proof (safe_get_loop_no_debug_write d url 3 3 0 n) as Hsafe.
  fold (Script1.safe_get d url 3) in Hsafe.
  destruct (Script1.safe_get d url 3 n) as [[ok n1] l0].
  unfold trace_of in *; cbn [snd] in *.
  assert (Hl0 : In (DebugWrite pid) l0 -> False).
  { intros Hin. pose proof (in_filter_nil _ _ _ Hsafe Hin) as H. discriminate. }
  destruct ok; cbn [negb];
    [|unfold ret; cbn [snd]; rewrite app_nil_r; intros H; now elim Hl0].
  unfold navs. cbn [fst snd].
  destruct (wait_ok d n1); cbn [negb];
    [|unfold ret; simpl; rewrite !app_nil_r; intros H; now elim Hl0].
  destruct (Script1.is_not_found (page_source d n1)).
  { unfold emit, ret; simpl. rewrite in_app_iff. simpl.
    intros [H|[H|[]]]; [now elim Hl0 | discriminate]. }
  destruct (file_ok d n1); cbn [negb];
    [|unfold ret; simpl; rewrite !app_nil_r; intros H; now elim Hl0].
  unfold emit, ret.
  destruct (Script1.extract_fields (page_source d n1)); simpl;
    rewrite in_app_iff; simpl;
    (intros [H|[H|[]]]; [now elim Hl0 | now injection H as <-]).
Qed.

Lemma scrape_loop_debug_ids {L : Library} (d : Driver) (url : string)
  (max_retries : nat) (pid : string) :
  forall todo attempt_no n,
    In (DebugWrite pid)
      (trace_of (Script1.scrape_loop d url max_retries attempt_no todo n)) ->
    pid = player_id_of url "unknown".
Proof.
  induction todo as [|todo IH]; intros attempt_no n; [intros []|].
  cbn [Script1.scrape_loop]. unfold bind, emit.
  pose proof (attempt_debug_ids d url n pid) as Ha.
  destruct (Script1.attempt d url n) as [[e n1] l1].
  unfold trace_of in Ha; cbn [snd] in Ha.
  destruct e as [r| |].
  - unfold ret, trace_of; simpl. rewrite app_nil_r. exact Ha.
  - specialize (IH (S attempt_no) n1).
    destruct (Script1.scrape_loop d url max_retries (S attempt_no) todo n1)
      as [[r n2] l2].
    unfold trace_of in *; simpl in *. rewrite in_app_iff. intros [H|H]; auto.
  - specialize (IH (S attempt_no) n1).
    destruct (Script1.scrape_loop d url max_retries (S attempt_no) todo n1)
      as [[r n2] l2].
    unfold trace_of in *; simpl in *. rewrite in_app_iff. simpl.
    intros [H|[H|H]]; [auto | discriminate | auto].
Qed.

Lemma process_row_debug_ids {L : Library} (d : Driver) (idx : nat) (row : node)
  (n : nat) (pid : string) :
  In (DebugWrite pid) (trace_of (Script1.process_row d idx row n)) ->
  exists r, In r (result_of (Script1.process_row d idx row n))
            /\ pid = Invariants.debug_id r.
Proof.
  unfold Script1.process_row.
  destruct (length (find_all (is_tag "td") row) <? 8);
    [unfold bind, emit, ret, trace_of; simpl; intros [H|[]]; discriminate|].
  destruct (find (is_tag "a") (nth 1 (find_all (is_tag "td") row) (Text "")))
    as [name_tag|]; [|intros []].
  destruct (attr name_tag "href") as [href|];
    [|unfold bind, emit, ret, trace_of; simpl; intros [H|[]]; discriminate].
  unfold bind.
  pose proof (scrape_loop_debug_ids d ("https://sofifa.com" ++ href) 3 pid 3 0 n) as Hs.
  fold (Script1.scrape_player_profile d ("https://sofifa.com" ++ href) 3) in Hs.
  destruct (Script1.scrape_player_profile d ("https://sofifa.com" ++ href) 3 n)
    as [[r n1] l1].
  unfold trace_of, result_of, ret in *; cbn [fst snd] in *.
  rewrite app_nil_r. intros Hin. specialize (Hs Hin).
  eexists. split; [left; reflexivity|].
  unfold Invariants.debug_id. cbn [ID].
  rewrite Hs. unfold player_id_of. rewrite search_player_site_prefix.
  destruct (search_player href) as [ds|] eqn:Hh; [|reflexivity].
  destruct (search_player_some href ds Hh) as (_ & _ & _ & Hne & Hall & _).
  pose proof (digits_not_sentinel ds Hne Hall) as Hds.
  apply String.eqb_neq in Hds. now rewrite Hds.
Qed.

(** Every debug file that the loop over the rows writes is named after
    the ID of a record of the frame, and "unknown" for a record whose ID
    is "-": the id in the file name is read off the same link as the ID,
    so the records without an ID share one debug file. *)
Theorem debug_files_follow_ids {L : Library} (d : Driver) (pid : string) :
  forall rows idx n,
    In (DebugWrite pid) (trace_of (Script1.process_rows d idx rows n)) ->
    exists r, In r (result_of (Script1.process_rows d idx rows n))
              /\ pid = Invariants.debug_id r.
Proof.
  induction rows as [|row rows IH]; intros idx n; [intros []|].
  cbn [Script1.process_rows]. unfold bind.
  pose proof (process_row_debug_ids d idx row n pid) as Hrow.
  destruct (Script1.process_row d idx row n) as [[here n1] l1].
  specialize (IH (S idx) n1).
  destruct (Script1.process_rows d (S idx) rows n1) as [[later n2] l2].
  unfold trace_of, result_of, ret in *; cbn [fst snd] in *.
  rewrite app_nil_r, in_app_iff. intros [H|H].
  - destruct (Hrow H) as (r & Hr & Hpid). exists r. rewrite in_app_iff. auto.
  - destruct (IH H) as (r & Hr & Hpid). exists r. rewrite in_app_iff. auto.
Qed.

(** The rows of the scenario: the debug file of the first player. *)
Lemma debug_files_follow_ids_witness :
  exists r,
    In r (result_of (Script1.process_rows (L := Samples.stub_library)
                       (Samples.serve Samples.page_without_ld) 1 Samples.scenario_rows 0))
    /\ "231747" = Invariants.debug_id r.
Proof.
  exact (@debug_files_follow_ids Samples.stub_library
           (Samples.serve Samples.page_without_ld) "231747"
           Samples.scenario_rows 1 0 (or_intror (or_introl eq_refl))).
Defined.


(** ** The grid of a player page in Script_2 *)

Lemma fold_col_step (cols : list node) :
  forall acc,
    let r := fold_left Script2.col_step cols acc in
    fst r = last (Invariants.grid_values "Value" cols) (fst acc)
    /\ snd r = last (Invariants.grid_values "Wage" cols) (snd acc).
Proof.
  induction cols as [|col cols IH] using rev_ind; intros acc; [cbn; auto|].
  cbv zeta. rewrite fold_left_app. cbn [fold_left].
  destruct (IH acc) as [Hv Hw].
  unfold Invariants.grid_values in *.
  rewrite !flat_map_app. cbn [flat_map]. rewrite !app_nil_r.
  unfold Script2.col_step at 1 3. cbv zeta.
  destruct (find (fun n => is_tag "div" n && has_class "sub" n) col) as [sub|];
    [|rewrite !app_nil_r; auto].
  destruct (find (is_tag "em") col) as [value_el|]; [|rewrite !app_nil_r; auto].
  destruct (String.eqb_spec (strip (Soup.text sub)) "Value") as [->|_];
    [cbn; rewrite ?app_nil_r, ?last_last; auto|].
  destruct (String.eqb_spec (strip (Soup.text sub)) "Wage") as [_|_];
    cbn [fst snd]; rewrite ?app_nil_r, ?last_last; auto.
Qed.

(** Script_2 reads Value and Wage off the last column of the grid whose
    label is exactly "Value" (or "Wage") and that has an [em] element;
    without such a column the field is "-", and without an [h1] the name
    is "-". *)
Theorem parse_player_last_match (soup : node) :
  snd (fst (Script2.parse_player soup))
  = last (Invariants.grid_values "Value" (select_cols soup)) "-"
  /\ snd (Script2.parse_player soup)
     = last (Invariants.grid_values "Wage" (select_cols soup)) "-"
  /\ (Invariants.grid_values "Value" (select_cols soup) = [] ->
      snd (fst (Script2.parse_player soup)) = "-")
  /\ (find (is_tag "h1") soup = None -> fst (fst (Script2.parse_player soup)) = "-").
Proof.
  unfold Script2.parse_player. cbv zeta. cbn [fst snd].
  destruct (fold_col_step (select_cols soup) ("-", "-")) as [Hv Hw].
  cbv zeta in Hv, Hw. cbn [fst snd] in Hv, Hw.
  split; [exact Hv|]. split; [exact Hw|]. split.
  - intros H. rewrite Hv, H. reflexivity.
  - intros H. now rewrite H.
Qed.

(** ** The names of the output files *)

Lemma without_app (c : ascii) (a b : string) :
  Output.without c (a ++ b) = Output.without c a && Output.without c b.
Proof.
  unfold Output.without. induction a as [|x a IH]; [reflexivity|].
  cbn [String.append all_chars]. now rewrite IH, andb_assoc.
Qed.



Lemma last_piece_from_has_no_sep (sep : ascii) (s : string) :
  forall cur, Output.without sep cur = true ->
    Output.without sep (Output.last_piece_from sep cur s) = true.
Proof.
  induction s as [|x s IH]; intros cur H; cbn [Output.last_piece_from];
    [exact H|].
  destruct (Ascii.eqb x sep) eqn:Hx.
  - now apply IH.
  - apply IH. rewrite without_app, H. unfold Output.without.
    cbn [all_chars]. now rewrite Hx.
Qed.

Lemma rstrip_char_snoc (c : ascii) (s : string) :
  Output.rstrip_char c (s ++ String c EmptyString) = Output.rstrip_char c s.
Proof.
  induction s as [|x s IH].
  - cbn. now rewrite Ascii.eqb_refl.
  - cbn [String.append Output.rstrip_char]. now rewrite IH.
Qed.

Lemma strip_char_snoc (c : ascii) (s : string) :
  Output.strip_char c (s ++ String c EmptyString) = Output.strip_char c s.
Proof.
  unfold Output.strip_char. induction s as [|x s IH].
  - cbn. now rewrite Ascii.eqb_refl.
  - cbn [String.append Output.lstrip_char].
    destruct (Ascii.eqb x c); [exact IH|].
    exact (rstrip_char_snoc c (String x s)).
Qed.

Lemma strip_char_cons (c : ascii) (s : string) :
  Output.strip_char c (String c s) = Output.strip_char c s.
Proof.
  unfold Output.strip_char. cbn [Output.lstrip_char].
  now rewrite Ascii.eqb_refl.
Qed.




(** The name that both scripts put into their file names never contains
    a slash, so the files stay in the output folder; slashes at either
    end of the team URL do not change it, and a URL made of slashes only
    (or the empty one) gives the empty name. *)
Theorem team_name_without_slash (team_url : string) :
  Output.without Output.slash (Output.team_name team_url) = true
  /\ Output.team_name (team_url ++ "/") = Output.team_name team_url
  /\ Output.team_name ("/" ++ team_url) = Output.team_name team_url
  /\ (all_chars (Ascii.eqb Output.slash) team_url = true ->
      Output.team_name team_url = EmptyString).
Proof.
  split; [|split; [|split]].
  - apply last_piece_from_has_no_sep. reflexivity.
  - unfold Output.team_name. now rewrite (strip_char_snoc Output.slash).
  - unfold Output.team_name. cbn [String.append].
    now rewrite (strip_char_cons Output.slash).
  - intros H. unfold Output.team_name, Output.strip_char.
    assert (Hl : Output.lstrip_char Output.slash team_url = EmptyString).
    { induction team_url as [|x s IH]; [reflexivity|].
      cbn [all_chars] in H. apply andb_prop in H as [Hx Hs].
      cbn [Output.lstrip_char]. rewrite Ascii.eqb_sym in Hx.
      rewrite Hx. now apply IH. }
    now rewrite Hl.
Qed.



Lemma string_length_app (a b : string) :
  String.length (a ++ b) = String.length a + String.length b.
Proof. induction a as [|x a IH]; cbn; [reflexivity|now rewrite IH]. Qed.

Lemma take_append (p rest : string) : take (String.length p) (p ++ rest) = p.
Proof. induction p as [|x p IH]; cbn; [now destruct rest|now rewrite IH]. Qed.

Lemma rfind_from_range (c : ascii) (s : string) :
  forall i, (0 <= i)%Z ->
    Output.rfind_from c i s = (-1)%Z
    \/ (i <= Output.rfind_from c i s < i + Z.of_nat (String.length s))%Z.
Proof.
  induction s as [|x s IH]; intros i Hi; [now left|].
  cbn [Output.rfind_from String.length].
  destruct (IH (i + 1)%Z ltac:(lia)) as [H|H].
  - rewrite H. cbn. destruct (Ascii.eqb x c); [right; lia|now left].
  - destruct (0 <=? Output.rfind_from c (i + 1) s)%Z eqn:E; [right; lia|].
    apply Z.leb_gt in E. lia.
Qed.

Lemma rfind_from_without (c : ascii) (s : string) :
  forall i, Output.without c s = true -> Output.rfind_from c i s = (-1)%Z.
Proof.
  unfold Output.without. induction s as [|x s IH]; intros i H; [reflexivity|].
  cbn [all_chars] in H. apply andb_prop in H as [Hx Hs].
  apply negb_true_iff in Hx.
  cbn [Output.rfind_from]. rewrite (IH _ Hs), Hx. reflexivity.
Qed.

Lemma rfind_from_app (c : ascii) (a b : string) :
  forall i, (0 <= i)%Z ->
    Output.rfind_from c i (a ++ b)
    = if (0 <=? Output.rfind_from c (i + Z.of_nat (String.length a)) b)%Z
      then Output.rfind_from c (i + Z.of_nat (String.length a)) b
      else Output.rfind_from c i a.
Proof.
  induction a as [|x a IH]; intros i Hi.
  - cbn [String.append String.length Output.rfind_from].
    replace (i + Z.of_nat 0)%Z with i by lia.
    destruct (rfind_from_range c b i Hi) as [H|H].
    + now rewrite H.
    + destruct (0 <=? Output.rfind_from c i b)%Z eqn:E; [reflexivity|].
      apply Z.leb_gt in E. lia.
  - cbn [String.append String.length Output.rfind_from].
    rewrite (IH (i + 1)%Z ltac:(lia)).
    replace (i + Z.of_nat (S (String.length a)))%Z
      with (i + 1 + Z.of_nat (String.length a))%Z by lia.
    destruct (0 <=? Output.rfind_from c (i + 1 + Z.of_nat (String.length a)) b)%Z
      eqn:E; [now rewrite E|reflexivity].
Qed.

Lemma rfind_last_char (c : ascii) (a rest : string) :
  Output.without c rest = true ->
  Output.rfind c (a ++ String c rest) = Z.of_nat (String.length a).
Proof.
  intros H. unfold Output.rfind. rewrite rfind_from_app by lia.
  cbn [Output.rfind_from]. rewrite (rfind_from_without c rest _ H).
  rewrite Ascii.eqb_refl. cbn [Z.leb Z.compare].
  replace (0 + Z.of_nat (String.length a))%Z
    with (Z.of_nat (String.length a)) by lia.
  destruct (0 <=? Z.of_nat (String.length a))%Z eqn:E; [reflexivity|].
  apply Z.leb_gt in E. lia.
Qed.

Lemma rfind_absent_after (c : ascii) (a rest : string) :
  Output.without c rest = true ->
  Output.rfind c (a ++ rest) = Output.rfind c a.
Proof.
  intros H. unfold Output.rfind. rewrite rfind_from_app by lia.
  now rewrite (rfind_from_without c rest _ H).
Qed.

Lemma ends_with_snoc (c : ascii) (s : string) :
  Output.ends_with c s = true ->
  exists s', s = (s' ++ String c EmptyString)%string.
Proof.
  induction s as [|x s IH]; [discriminate|].
  cbn [Output.ends_with]. destruct s as [|y s].
  - intros H. apply Ascii.eqb_eq in H. subst. now exists EmptyString.
  - intros H. destruct (IH H) as [s' Hs']. exists (String x s').
    cbn [String.append]. now rewrite <- Hs'.
Qed.

(** What [os.path.join(output_dir, name)] puts before a name that does
    not start with a slash: nothing, or a text that ends with a slash. *)
Lemma path_join_folder (output_dir : string) :
  exists D,
    (D = EmptyString \/ exists D', D = (D' ++ "/")%string)
    /\ forall b, prefix "/" b = false ->
         Output.path_join output_dir b = (D ++ b)%string.
Proof.
  unfold Output.path_join.
  destruct (output_dir =? "")%string eqn:He.
  - apply String.eqb_eq in He. subst. exists EmptyString.
    split; [now left|]. intros b Hb. now rewrite Hb.
  - destruct (Output.ends_with Output.slash output_dir) eqn:Hs.
    + exists output_dir. split.
      * right. exact (ends_with_snoc _ _ Hs).
      * intros b Hb. now rewrite Hb.
    + exists (output_dir ++ "/")%string. split.
      * right. now exists output_dir.
      * intros b Hb. rewrite Hb. cbn [orb]. now rewrite append_assoc.
Qed.

Lemma rfind_slash_folder (D rest : string) :
  (D = EmptyString \/ exists D', D = (D' ++ "/")%string) ->
  Output.without Output.slash rest = true ->
  Output.rfind Output.slash (D ++ rest) = (Z.of_nat (String.length D) - 1)%Z.
Proof.
  intros HD Hrest. rewrite (rfind_absent_after _ _ _ Hrest).
  destruct HD as [->|[D' ->]]; [reflexivity|].
  change (D' ++ "/")%string with (D' ++ String Output.slash EmptyString)%string.
  rewrite rfind_last_char by reflexivity.
  rewrite string_length_app. cbn [String.length]. lia.
Qed.

Lemma splitext_root_cut (D y : string) (x : ascii) (ext : string) :
  (D = EmptyString \/ exists D', D = (D' ++ "/")%string) ->
  Ascii.eqb x Output.dot = false ->
  Output.without Output.slash (String x y ++ "." ++ ext) = true ->
  Output.without Output.dot ext = true ->
  Output.splitext_root (D ++ String x y ++ "." ++ ext) = (D ++ String x y)%string.
Proof.
  intros HD Hx Hsl Hdot. unfold Output.splitext_root.
  rewrite (rfind_slash_folder D _ HD Hsl).
  assert (Hd : Output.rfind Output.dot (D ++ String x y ++ "." ++ ext)
               = Z.of_nat (String.length (D ++ String x y))).
  { rewrite <- append_assoc.
    change ("." ++ ext)%string with (String Output.dot ext).
    now apply rfind_last_char. }
  rewrite Hd. cbv zeta.
  assert (Hlt : (Z.of_nat (String.length D) - 1
                 <? Z.of_nat (String.length (D ++ String x y)))%Z = true).
  { apply Z.ltb_lt. rewrite string_length_app. lia. }
  rewrite Hlt.
  replace (Z.to_nat (Z.of_nat (String.length D) - 1 + 1)) with (String.length D)
    by lia.
  rewrite drop_append, Nat2Z.id.
  replace (String.length (D ++ String x y) - String.length D)
    with (String.length (String x y)) by (rewrite string_length_app; lia).
  rewrite take_append. cbn [all_chars]. rewrite Hx. cbn [andb].
  rewrite <- append_assoc. apply take_append.
Qed.

Lemma splitext_root_whole (D name : string) :
  (D = EmptyString \/ exists D', D = (D' ++ "/")%string) ->
  Output.without Output.slash name = true ->
  Output.without Output.dot name = true ->
  Output.splitext_root (D ++ name) = (D ++ name)%string.
Proof.
  intros HD Hsl Hdot. unfold Output.splitext_root.
  rewrite (rfind_slash_folder D _ HD Hsl).
  rewrite (rfind_absent_after _ _ _ Hdot). cbv zeta.
  assert (Hle : (Z.of_nat (String.length D) - 1 <? Output.rfind Output.dot D)%Z
                = false).
  { apply Z.ltb_ge. unfold Output.rfind.
    destruct (rfind_from_range Output.dot D 0%Z ltac:(lia)) as [H|H]; lia. }
  now rewrite Hle.
Qed.

Lemma team_name_has_no_slash (team_url : string) :
  Output.without Output.slash (Output.team_name team_url) = true.
Proof. apply last_piece_from_has_no_sep. reflexivity. Qed.

(** With POSIX paths, Script_1 cuts the name at its last dot: when the
    name taken from the team URL is [stem.ext], the three files are named
    after [SCRIPT_1_stem] only, because [export_all_formats] takes the
    text from the last dot on for an extension.  Dots in the output
    folder do not matter. *)
Theorem script1_files_cut_at_last_dot (output_dir team_url stem ext : string)
  (Hname : Output.team_name team_url = (stem ++ "." ++ ext)%string)
  (Hext : Output.without Output.dot ext = true) :
  Output.script1_files output_dir team_url
  = [Output.path_join output_dir ("SCRIPT_1_" ++ stem ++ ".xlsx");
     Output.path_join output_dir ("SCRIPT_1_" ++ stem ++ ".txt");
     Output.path_join output_dir ("SCRIPT_1_" ++ stem ++ ".json")].
Proof.
  destruct (path_join_folder output_dir) as (D & HD & HJ).
  pose proof (team_name_has_no_slash team_url) as Hsl. rewrite Hname in Hsl.
  unfold Output.script1_files, Output.identifier. rewrite Hname.
  rewrite !HJ by reflexivity.
  change ("SCRIPT_1_" ++ stem ++ "." ++ ext)%string
    with (String "S" ("CRIPT_1_" ++ stem) ++ "." ++ ext)%string.
  rewrite (splitext_root_cut D _ "S"%char ext HD eq_refl); [| |exact Hext].
  - cbv zeta. rewrite !append_assoc. reflexivity.
  - change (String "S" ("CRIPT_1_" ++ stem) ++ "." ++ ext)%string
      with ("SCRIPT_1_" ++ stem ++ "." ++ ext)%string.
    now rewrite without_app, Hsl.
Qed.

(** The team page .../as.roma/: the files are named SCRIPT_1_as. *)
Lemma script1_files_cut_at_last_dot_witness :
  Output.script1_files "OUTPUT" "https://sofifa.com/team/52/as.roma/"
  = [Output.path_join "OUTPUT" "SCRIPT_1_as.xlsx";
     Output.path_join "OUTPUT" "SCRIPT_1_as.txt";
     Output.path_join "OUTPUT" "SCRIPT_1_as.json"].
Proof.
  exact (script1_files_cut_at_last_dot "OUTPUT"
           "https://sofifa.com/team/52/as.roma/" "as" "roma" eq_refl eq_refl).
Defined.

(** With POSIX paths and a name without a dot, the three files of
    Script_1 carry the whole identifier, also when the output folder has
    a dot in its name. *)
Theorem script1_files_whole_name (output_dir team_url : string)
  (Hno : Output.without Output.dot (Output.team_name team_url) = true) :
  Output.script1_files output_dir team_url
  = [Output.path_join output_dir (Output.identifier team_url ++ ".xlsx");
     Output.path_join output_dir (Output.identifier team_url ++ ".txt");
     Output.path_join output_dir (Output.identifier team_url ++ ".json")].
Proof.
  destruct (path_join_folder output_dir) as (D & HD & HJ).
  pose proof (team_name_has_no_slash team_url) as Hsl.
  unfold Output.script1_files, Output.identifier.
  rewrite !HJ by reflexivity.
  rewrite (splitext_root_whole D _ HD).
  - cbv zeta. now rewrite !append_assoc.
  - now rewrite without_app, Hsl.
  - now rewrite without_app, Hno.
Qed.

(** An output folder with a dot in its name. *)
Lemma script1_files_whole_name_witness :
  Output.script1_files "out.v1" "https://sofifa.com/team/243/real-madrid/"
  = [Output.path_join "out.v1"
       (Output.identifier "https://sofifa.com/team/243/real-madrid/" ++ ".xlsx");
     Output.path_join "out.v1"
       (Output.identifier "https://sofifa.com/team/243/real-madrid/" ++ ".txt");
     Output.path_join "out.v1"
       (Output.identifier "https://sofifa.com/team/243/real-madrid/" ++ ".json")].
Proof.
  exact (script1_files_whole_name "out.v1"
           "https://sofifa.com/team/243/real-madrid/" eq_refl).
Defined.
